(** * Shallow embedding of striptun's bandwidth analysis (bandwidth.py, reports.py)

    Numeric arrays of numpy float64 are embedded as lists of exact rationals
    [Q]: a 1-D array is a [list Q], a 2-D array (rows = samples, columns =
    detectors) is a [list (list Q)] given row by row.  Python exceptions are
    the [Raise] branch of the [outcome] type below. *)

From Stdlib Require Import QArith Qabs Qround Qminmax Lia ZArith Lqa Ascii Sorted.
From stdpp Require Import base list gmap strings pretty.

Local Open Scope Q_scope.

(** ** Python outcomes *)

Inductive exn :=
| ValueError (msg : string)
| IndexError
| KeyError (key : string)
| NameError (name : string)
| UnboundLocalError (name : string)
| FileNotFoundError (path : string)
| MaskError.

Inductive outcome (A : Type) :=
| Ok (a : A)
| Raise (e : exn)
  (** numpy returns an array of [nan] (no exception) for a statistic of an
      empty selection; [nan] is not a rational, so that result is this
      branch. *)
| Nan.
Arguments Ok {A} a.
Arguments Raise {A} e.
Arguments Nan {A}.

Global Instance outcome_ret : MRet outcome := @Ok.
Global Instance outcome_bind : MBind outcome := fun A B k m =>
  match m with
  | Ok a => k a
  | Raise e => Raise e
  | Nan => Nan
  end.

(** ** numpy helpers on rationals *)

Definition Q_of_nat (n : nat) : Q := inject_Z (Z.of_nat n).

Definition qsum (l : list Q) : Q := fold_right Qplus 0 l.

(** [sorted(a)] as numpy's sort does it: ascending. *)
Fixpoint insert_sorted (x : Q) (l : list Q) : list Q :=
  match l with
  | [] => [x]
  | y :: l' => if Qle_bool x y then x :: l else y :: insert_sorted x l'
  end.

Fixpoint sort (l : list Q) : list Q :=
  match l with
  | [] => []
  | x :: l' => insert_sorted x (sort l')
  end.

Definition nthQ (l : list Q) (i : nat) : Q := nth i l 0.

(** [np.median(a)] of a 1-D array: middle element of the sorted array, mean
    of the two middle elements for an even length, [nan] when empty. *)
Definition median (a : list Q) : outcome Q :=
  let s := sort a in
  let n := length s in
  match n with
  | O => Nan
  | _ =>
      if Nat.odd n then Ok (nthQ s (Nat.div2 n))
      else Ok ((nthQ s (Nat.div2 n - 1) + nthQ s (Nat.div2 n)) / 2)
  end.

(** [np.percentile(a, q)] of a 1-D array with numpy's default [linear]
    method: virtual index [h = q/100 * (n-1)], linear interpolation between
    the sorted neighbours [a[floor h]] and [a[floor h + 1]]; numpy's
    indexing of an empty array raises IndexError. *)
Definition percentile (a : list Q) (q : Q) : outcome Q :=
  let s := sort a in
  let n := length s in
  match n with
  | O => Raise IndexError
  | _ =>
      let h := q / 100 * Q_of_nat (n - 1) in
      let lo := Z.to_nat (Qfloor h) in
      let g := h - inject_Z (Qfloor h) in
      let hi := Nat.min (S lo) (n - 1) in
      Ok (nthQ s lo + g * (nthQ s hi - nthQ s lo))
  end.

(** Column [i] of a 2-D array given by rows. *)
Definition column (rows : list (list Q)) (i : nat) : list Q :=
  map (fun r => nthQ r i) rows.

Fixpoint mapM {A B} (f : A -> outcome B) (l : list A) : outcome (list B) :=
  match l with
  | [] => Ok []
  | x :: l' => y ← f x; ys ← mapM f l'; Ok (y :: ys)
  end.

(** ** find_blind_channel (bandwidth.py, lines 117-127) *)

Definition ncols (rows : list (list Q)) : nat :=
  match rows with [] => O | r :: _ => length r end.

(** [np.argmin]: index of the first smallest element. *)
Fixpoint argmin_from (l : list Q) (i best : nat) (bv : Q) : nat :=
  match l with
  | [] => best
  | x :: l' =>
      if negb (Qle_bool bv x) then argmin_from l' (S i) i x
      else argmin_from l' (S i) best bv
  end.

Definition argmin (l : list Q) : outcome nat :=
  match l with
  | [] => Raise (ValueError "attempt to get argmin of an empty sequence")
  | x :: l' => Ok (argmin_from l' 1 0 x)
  end.

(** [np.percentile(data, q, axis=0)]: one percentile per column; an axis 0
    of length 0 raises IndexError. *)
Definition percentile_axis0 (data : list (list Q)) (q : Q) : outcome (list Q) :=
  match data with
  | [] => Raise IndexError
  | _ => mapM (fun i => percentile (column data i) q) (seq 0 (ncols data))
  end.

Definition var_range (data : list (list Q)) : outcome (list Q) :=
  p95 ← percentile_axis0 data 95;
  p5 ← percentile_axis0 data 5;
  Ok (zip_with Qminus p95 p5).

(** [pss] is assigned only for blind index 0 or 3; any other index reaches
    [return idx_blind, pss] with [pss] unbound. *)
Definition find_blind_channel (data : list (list Q)) : outcome (nat * string) :=
  vr ← var_range data;
  idx_blind ← argmin vr;
  if Nat.eqb idx_blind 0 then Ok (idx_blind, "0110")
  else if Nat.eqb idx_blind 3 then Ok (idx_blind, "0101")
  else Raise (UnboundLocalError "pss").

(** ** Aggregation step of main (bandwidth.py, lines 364-381) *)

(** [(np.percentile(a, 97.7) - np.percentile(a, 2.7)) / 2] *)
Definition half_spread_code (a : list Q) : outcome Q :=
  hi ← percentile a (977 # 10);
  lo ← percentile a (27 # 10);
  Ok ((hi - lo) / 2).

(** [final_band = np.median(norm_data_All, axis=1)]: one median per row. *)
Definition final_band (norm_data_All : list (list Q)) : outcome (list Q) :=
  mapM median norm_data_All.

(** [final_band_err], [final_central_nu_err] and [final_bandwidth_err]:
    the row-wise spread of the combined normalised matrix, and the spread of
    the aggregate central-frequency and bandwidth arrays. *)
Definition aggregate_errors (norm_data_All : list (list Q))
    (All_central_nu All_bandwidth : list Q) : outcome (list Q * Q * Q) :=
  final_band_err ← mapM half_spread_code norm_data_All;
  final_central_nu_err ← half_spread_code All_central_nu;
  final_bandwidth_err ← half_spread_code All_bandwidth;
  Ok (final_band_err, final_central_nu_err, final_bandwidth_err).

(** The same step with the percentile pair the spec states, 2.3 / 97.7. *)
Definition half_spread_spec (a : list Q) : outcome Q :=
  hi ← percentile a (977 # 10);
  lo ← percentile a (23 # 10);
  Ok ((hi - lo) / 2).

Definition aggregate_errors_spec (norm_data_All : list (list Q))
    (All_central_nu All_bandwidth : list Q) : outcome (list Q * Q * Q) :=
  final_band_err ← mapM half_spread_spec norm_data_All;
  final_central_nu_err ← half_spread_spec All_central_nu;
  final_bandwidth_err ← half_spread_spec All_bandwidth;
  Ok (final_band_err, final_central_nu_err, final_bandwidth_err).

(** ** get_central_nu_bandwidth (bandwidth.py, lines 130-154) *)

(** [nu[1:] - nu[:-1]] *)
Definition diffs (nu : list Q) : list Q := zip_with Qminus (tail nu) nu.

(** [np.allclose(a, b)] for a 1-D [a] and a scalar [b], with numpy's
    default tolerances [rtol = 1e-05], [atol = 1e-08]. *)
Definition rtol : Q := 1 # 100000.
Definition atol : Q := 1 # 100000000.
Definition allclose (a : list Q) (b : Q) : bool :=
  forallb (fun x => Qle_bool (Qabs (x - b)) (atol + rtol * Qabs b)) a.

Definition msg_not_uniform : string :=
  "The frequency steps are not uniform! Check out!".
Definition msg_broadcast : string :=
  "operands could not be broadcast together".

(** The two return shapes: two scalars when the last axis of [bandwidth]
    has length 1 and the result was [central_nu[0], bandwidth[0]] of a 1-D
    result, two arrays otherwise. *)
Inductive cnb_result :=
| Scalars (central_nu bandwidth : Q)
| Arrays (central_nu bandwidth : list Q).

(** Moments of one column against the frequency axis:
    [sum(data * nu) / sum(data)] and [sum(data)**2 * step / sum(data**2)].
    A zero denominator, [nan] or [inf] in numpy, is 0 in [Q]. *)
Definition central_of (col nu : list Q) : Q :=
  qsum (zip_with Qmult col nu) / qsum col.
Definition bandwidth_of (col : list Q) (step : Q) : Q :=
  qsum col ^ 2 * step / qsum (map (fun x => x ^ 2) col).

(** [data] is a 2-D array of [N] rows and [M] columns.  When [M = N] the
    source appends an axis ([data[..., None]], shape [(N, N, 1)]) and numpy
    broadcasts it against [nu[..., None]] (shape [(L, 1)]); when [N = 1] and
    [L <> 1] the single row is broadcast along [nu].  Every other row count
    [N <> L] is a broadcasting error. *)
Definition get_central_nu_bandwidth (nu : list Q) (data : list (list Q))
    : outcome cnb_result :=
  let d := diffs nu in
  match d with
  | [] => Raise IndexError
  | d0 :: _ =>
      if negb (allclose d d0) then Raise (ValueError msg_not_uniform)
      else
        let step := d0 in
        let L := length nu in
        let N := length data in
        let M := ncols data in
        if Nat.eqb M N then
          (* shape (N, N, 1): product entry [a, b] is [data[a, b] * nu[b]] *)
          if Nat.eqb N L then
            let c0 := column data 0 in
            Ok (Arrays [qsum c0 * nthQ nu 0 / qsum c0] [bandwidth_of c0 step])
          else if Nat.eqb N 1 then
            let x := nthQ (column data 0) 0 in
            Ok (Arrays [x * nthQ nu 0 / x] [x ^ 2 * step / x ^ 2])
          else Raise (ValueError msg_broadcast)
        else if Nat.eqb N L then
          let cols := map (column data) (seq 0 M) in
          let cs := map (fun c => central_of c nu) cols in
          let bs := map (fun c => bandwidth_of c step) cols in
          if Nat.eqb M 1 then Ok (Scalars (nthQ cs 0) (nthQ bs 0))
          else Ok (Arrays cs bs)
        else if Nat.eqb N 1 then
          let r := match data with [] => [] | r :: _ => r end in
          Ok (Arrays (map (fun x => x * qsum nu / x) r)
                     (map (fun x => x ^ 2 * step / x ^ 2) r))
        else Raise (ValueError msg_broadcast)
  end.

(** ** get_frequency_range_and_data (bandwidth.py, lines 20-58) *)

(** [np.unique(a, return_index=True, return_counts=True)]: the sorted
    distinct values (numpy sorts, then keeps each element that differs from
    its predecessor), the index of the first occurrence of each in [a], and
    its number of occurrences. *)
Fixpoint dedup_sorted (prev : Q) (l : list Q) : list Q :=
  match l with
  | [] => []
  | y :: l' => if Qeq_bool y prev then dedup_sorted prev l' else y :: dedup_sorted y l'
  end.

Definition unique_values (a : list Q) : list Q :=
  match sort a with
  | [] => []
  | y :: l' => y :: dedup_sorted y l'
  end.

Fixpoint first_index (x : Q) (a : list Q) : nat :=
  match a with
  | [] => O
  | y :: a' => if Qeq_bool y x then O else S (first_index x a')
  end.

Definition count_of (x : Q) (a : list Q) : nat :=
  length (filter (fun y => Qeq_bool y x) a).

(** Python slicing [a[start:stop]] with step 1: negative bounds count from
    the end, bounds are clipped to [0, len a]. *)
Definition py_index (len : Z) (i : Z) : Z :=
  if (i <? 0)%Z then Z.max 0 (len + i) else Z.min i len.

Definition py_slice {A} (a : list A) (start stop : Z) : list A :=
  let len := Z.of_nat (length a) in
  let s := py_index len start in
  let e := py_index len stop in
  firstn (Z.to_nat (e - s)) (skipn (Z.to_nat s) a).

(** [np.mean] and [np.std] (population deviation, [ddof = 0]); the square
    root is a parameter [sqrt] of the model, since it leaves [Q]. *)
Definition mean (a : list Q) : outcome Q :=
  match a with
  | [] => Nan
  | _ => Ok (qsum a / Q_of_nat (length a))
  end.

Definition std (sqrt : Q -> Q) (a : list Q) : outcome Q :=
  m ← mean a;
  v ← mean (map (fun x => (x - m) ^ 2) a);
  Ok (sqrt v).

(** [np.median(rows, axis=0)] and [np.std(rows, axis=0)] over [m] columns. *)
Definition median_axis0 (m : nat) (rows : list (list Q)) : outcome (list Q) :=
  mapM (fun i => median (column rows i)) (seq 0 m).

Definition std_axis0 (sqrt : Q -> Q) (m : nat) (rows : list (list Q))
    : outcome (list Q) :=
  mapM (fun i => std sqrt (column rows i)) (seq 0 m).

(** [data[nu > 0]]: rows kept where the boolean mask holds; a mask of
    another length is an [IndexError]. *)
Definition mask_rows {A} (keep : Q -> bool) (nu : list Q) (data : list A)
    : outcome (list A) :=
  if Nat.eqb (length nu) (length data)
  then Ok (map snd (filter (fun p => keep p.1) (zip nu data)))
  else Raise IndexError.

Definition positive (x : Q) : bool := negb (Qle_bool x 0).

(** A row whose statistic is [nan] in numpy makes the whole result [Nan]. *)
Definition get_frequency_range_and_data (sqrt : Q -> Q) (nu : list Q)
    (data : list (list Q)) (std_dev : bool) (rej : nat)
    : outcome (list Q * list (list Q) * option (list (list Q))) :=
  new_data_ ← mask_rows positive nu data;
  let new_nu_ := filter positive nu in
  let new_nu := unique_values new_nu_ in
  let m := ncols data in
  let stats := fun x =>
    let j := Z.of_nat (first_index x new_nu_) in
    let c := Z.of_nat (count_of x new_nu_) in
    let run := py_slice new_data_ (j + Z.of_nat rej) (j + c - Z.of_nat rej) in
    med ← median_axis0 m run;
    sd ← std_axis0 sqrt m run;
    Ok (med, map (fun s => s / sqrt (inject_Z c)) sd) in
  rows ← mapM stats new_nu;
  Ok (new_nu, map fst rows, if std_dev then Some (map snd rows) else None).

(** ** remove_offset (bandwidth.py, lines 61-114) *)

(** [np.min] / [np.max] of a 1-D array; both raise on an empty array. *)
Definition msg_min_empty : string :=
  "zero-size array to reduction operation minimum which has no identity".
Definition msg_max_empty : string :=
  "zero-size array to reduction operation maximum which has no identity".

Definition qmin (a : list Q) : outcome Q :=
  match a with
  | [] => Raise (ValueError msg_min_empty)
  | x :: a' => Ok (fold_left Qmin a' x)
  end.

Definition qmax (a : list Q) : outcome Q :=
  match a with
  | [] => Raise (ValueError msg_max_empty)
  | x :: a' => Ok (fold_left Qmax a' x)
  end.

(** [np.polyfit([x1, x2], [y1, y2], 1)] = [(slope, intercept)].  For
    [x1 <> x2] the least-squares line is the line through both points.  For
    [x1 = x2] (here [x1 > 0]) the system has rank 1: numpy divides each
    Vandermonde column by its norm and takes lstsq's minimum-norm solution,
    which after rescaling is [(ym / (2 x1), ym / 2)] with [ym] the mean of
    [y1] and [y2]. *)
Definition polyfit1 (x1 x2 y1 y2 : Q) : Q * Q :=
  if Qeq_bool x1 x2 then
    let ym := (y1 + y2) / 2 in (ym / (2 * x1), ym / 2)
  else
    let a := (y2 - y1) / (x2 - x1) in (a, y1 - a * x1).

(** [nu] and [data] are the two arrays of one acquisition, of the same
    length (the model raises [IndexError] otherwise); [data] has at least
    the 4 detector columns the loop writes ([IndexError] otherwise).  A
    half without off-sentinel rows gives a [nan] median in numpy ([Nan]
    here), reported only after [np.min] and [np.max] have run. *)
Definition remove_offset (nu : list Q) (data : list (list Q))
    : outcome (list (list Q)) :=
  if negb (Nat.eqb (length nu) (length data)) then Raise IndexError else
  let m := ncols data in
  let h := Nat.div2 (length data) in
  let is_off := fun x => Qeq_bool x (-1) in
  firsthalf_sel ← mask_rows is_off (firstn h nu) (firstn h data);
  secondhalf_sel ← mask_rows is_off (skipn h nu) (skipn h data);
  let first_offset := median_axis0 m firsthalf_sel in
  let second_offset := median_axis0 m secondhalf_sel in
  x1 ← qmin (filter positive nu);
  x2 ← qmax nu;
  fo ← first_offset;
  so ← second_offset;
  if (m <? 4)%nat then Raise IndexError else
  let coeffs := map (fun i => polyfit1 x1 x2 (nthQ fo i) (nthQ so i)) (seq 0 4) in
  let offset_row := fun n =>
    map (fun i => if (i <? 4)%nat then n * (nth i coeffs (0, 0)).1 + (nth i coeffs (0, 0)).2
                  else 0) (seq 0 m) in
  Ok (zip_with (fun n row => zip_with Qminus row (offset_row n)) nu data).

(** The rows of [data] taken at the off-sentinel frequency [-1]. *)
Definition off_rows (nu : list Q) (data : list (list Q)) : list (list Q) :=
  map snd (filter (fun p => Qeq_bool p.1 (-1)) (zip nu data)).

(** Every per-detector median of [rows] exists and is 0. *)
Definition median_is_zero (rows : list (list Q)) : Prop :=
  forall i, (i < 4)%nat -> exists z, median (column rows i) = Ok z /\ z == 0.

(** [data + k]: the constant [k] added to every element. *)
Definition add_const (k : Q) (data : list (list Q)) : list (list Q) :=
  map (map (fun x => x + k)) data.

(** ** AnalyzeBandTest (bandwidth.py, lines 279-318) *)

(** [new_data[new_data > 0] = 0] *)
Definition clamp_positive (new_data : list (list Q)) : list (list Q) :=
  map (map (fun x => if positive x then 0 else x)) new_data.

(** [mask = np.ones(4, dtype=bool); mask[idx_blind] = False]: the column
    indices kept by [new_data[:, mask]], in order. *)
Definition kept_columns (idx_blind : nat) : list nat :=
  filter (fun i => negb (Nat.eqb i idx_blind)) (seq 0 4).

(** [np.ma.masked_array(a, mask=~mask)]: the blind entry is masked. *)
Definition mask_blind (idx_blind : nat) (a : list Q) : list (option Q) :=
  imap (fun i x => if Nat.eqb i idx_blind then None else Some x) a.

Record band_result := {
  res_pss : string;
  res_new_nu : list Q;
  res_new_data : list (list Q);
  res_norm_data : list (list Q);
  res_central_nu_det : list (option Q);
  res_bandwidth_det : list (option Q)
}.

Definition as_array (r : cnb_result) : list Q * list Q :=
  match r with
  | Scalars c b => ([c], [b])
  | Arrays cs bs => (cs, bs)
  end.

(** The part of AnalyzeBandTest after binning (lines 295-318).
    [np.ma.masked_array(a, mask=~mask)] raises MaskError unless [a] has as
    many entries as the 4-entry mask (a scalar, or the 1-entry arrays of the
    square case of get_central_nu_bandwidth, do not); [new_data[:, mask]]
    needs 4 columns ([IndexError] otherwise); [min(axis=0)] of an empty
    column raises. *)
Definition analyze_binned (new_nu : list Q) (new_data0 : list (list Q))
    : outcome band_result :=
  let new_data := clamp_positive new_data0 in
  cnb ← get_central_nu_bandwidth new_nu new_data;
  '(idx_blind, pss) ← find_blind_channel new_data;
  let '(cf, bw) := as_array cnb in
  if negb (Nat.eqb (length cf) 4) then Raise MaskError else
  if negb (Nat.eqb (length bw) 4) then Raise MaskError else
  if negb (Nat.eqb (ncols new_data) 4) then Raise IndexError else
  let kept := kept_columns idx_blind in
  mins ← mapM (fun i => qmin (column new_data i)) kept;
  let norm_data :=
    map (fun row => zip_with (fun i mn => nthQ row i / Qabs mn) kept mins) new_data in
  Ok {| res_pss := pss; res_new_nu := new_nu; res_new_data := new_data;
        res_norm_data := norm_data;
        res_central_nu_det := mask_blind idx_blind cf;
        res_bandwidth_det := mask_blind idx_blind bw |}.

(** AnalyzeBandTest on the frequency and power arrays [load_timestream]
    returned ([datafile[-1]], [datafile[-3]]); the duration is
    [len(data) / SAMPLING_FREQUENCY_HZ] seconds. *)
Definition SAMPLING_FREQUENCY_HZ : Q := 25.

Definition AnalyzeBandTest (sqrt : Q -> Q) (nu : list Q) (data : list (list Q))
    : outcome (Q * band_result) :=
  let duration := Q_of_nat (length data) / SAMPLING_FREQUENCY_HZ in
  nooffdata ← remove_offset nu data;
  '(new_nu, new_data, _) ← get_frequency_range_and_data sqrt nu nooffdata true 1;
  r ← analyze_binned new_nu new_data;
  Ok (duration, r).

(** ** build_dict_from_results (bandwidth.py, lines 232-256) *)

Set Warnings "-register-all".

(** Python values stored in the result mapping; a dict is an association
    list in insertion order. *)
Inductive pyval :=
| PStr (s : string)
| PNum (q : Q)
| PDict (d : list (string * pyval)).

Fixpoint dict_get (k : string) (d : list (string * pyval)) : option pyval :=
  match d with
  | [] => None
  | (k', v) :: d' => if String.eqb k k' then Some v else dict_get k d'
  end.

(** [d[k] = v]: an existing key keeps its position, a new key goes last. *)
Fixpoint dict_set (k : string) (v : pyval) (d : list (string * pyval))
    : list (string * pyval) :=
  match d with
  | [] => [(k, v)]
  | (k', v') :: d' => if String.eqb k k' then (k, v) :: d' else (k', v') :: dict_set k v d'
  end.

Definition NAMING_CONVENTION : list string :=
  ["PW0/Q1"; "PW1/U1"; "PW2/U2"; "PW3/Q2"].

(** [nam.replace("/", "")] *)
Fixpoint strip_slash (s : string) : string :=
  match s with
  | EmptyString => EmptyString
  | String c s' => if Ascii.eqb c "/"%char then strip_slash s' else String c (strip_slash s')
  end.

(** [a[j, i]] and [a[j, i] = x] on a 2-D numpy array. *)
Definition get2 (a : list (list Q)) (j i : nat) : outcome Q :=
  match a !! j with
  | Some row => match row !! i with Some x => Ok x | None => Raise IndexError end
  | None => Raise IndexError
  end.

Definition set2 (a : list (list Q)) (j i : nat) (x : Q) : outcome (list (list Q)) :=
  match a !! j with
  | Some row => if (i <? length row)%nat then Ok (<[j := <[i := x]> row]> a) else Raise IndexError
  | None => Raise IndexError
  end.

(** [pss == '0101' and i == 3 or pss == '0110' and i == 0] *)
Definition is_blind (pss : string) (i : nat) : bool :=
  (String.eqb pss "0101" && Nat.eqb i 3) || (String.eqb pss "0110" && Nat.eqb i 0).

(** The state the loops thread: the result dict and the caller's
    [central_nu_det] and [bandwidth_det] arrays, which the source assigns
    in place. *)
Definition bd_state : Type := list (string * pyval) * list (list Q) * list (list Q).

(** [results[key][nam] = {...}]: the nested dict is mutated in place. *)
Definition set_nested (key nam : string) (v : pyval) (results : list (string * pyval))
    : outcome (list (string * pyval)) :=
  match dict_get key results with
  | Some (PDict d) => Ok (dict_set key (PDict (dict_set nam v d)) results)
  | _ => Raise (KeyError key)
  end.

(** The inner loop [for i, nam in enumerate(NAMING_CONVENTION)]. *)
Fixpoint detector_loop (j : nat) (pss key : string) (i : nat) (names : list string)
    (st : bd_state) : outcome bd_state :=
  match names with
  | [] => Ok st
  | nam0 :: names' =>
      let '(results, central_nu_det, bandwidth_det) := st in
      let nam := strip_slash nam0 in
      '(central_nu_det, bandwidth_det) ←
        (if is_blind pss i then
           cn ← set2 central_nu_det j i 0;
           bw ← set2 bandwidth_det j i 0;
           Ok (cn, bw)
         else Ok (central_nu_det, bandwidth_det));
      c ← get2 central_nu_det j i;
      b ← get2 bandwidth_det j i;
      results ← set_nested key nam
                  (PDict [("central_nu", PNum c); ("bandwidth", PNum b)]) results;
      detector_loop j pss key (S i) names' (results, central_nu_det, bandwidth_det)
  end.

Definition ps_key (pss : string) (j : nat) : string := "ps" +:+ pss +:+ "_" +:+ pretty j.

(** The outer loop [for j, pss in enumerate(PSStatus)]. *)
Fixpoint file_loop (j : nat) (PSStatus : list string) (st : bd_state) : outcome bd_state :=
  match PSStatus with
  | [] => Ok st
  | pss :: rest =>
      let '(results, cn, bw) := st in
      let results := dict_set ("PSStatus" +:+ "_" +:+ pretty j) (PStr pss) results in
      let results := dict_set (ps_key pss j) (PDict []) results in
      st ← detector_loop j pss (ps_key pss j) 0 NAMING_CONVENTION (results, cn, bw);
      file_loop (S j) rest st
  end.

(** Returns the mapping together with the two arrays as the caller sees
    them after the call. *)
Definition build_dict_from_results (pol_name : string) (duration : Q)
    (PSStatus : list string) (central_nu_det bandwidth_det : list (list Q))
    (final_central_nu final_central_nu_err final_bandwidth final_bandwidth_err : Q)
    : outcome bd_state :=
  let results :=
    [("polarimeter_name", PStr pol_name);
     ("title", PStr ("Bandwidth test for polarimeter " +:+ pol_name));
     ("sampling_frequency", PNum SAMPLING_FREQUENCY_HZ);
     ("test_duration", PNum (duration / 60 / 60));
     ("final_central_nu", PNum final_central_nu);
     ("final_central_nu_err", PNum final_central_nu_err);
     ("final_bandwidth", PNum final_bandwidth);
     ("final_bandwidth_err", PNum final_bandwidth_err)] in
  file_loop 0 PSStatus (results, central_nu_det, bandwidth_det).

(** The entry [{'central_nu': c, 'bandwidth': b}] of one detector. *)
Definition det_entry (c b : Q) : pyval := PDict [("central_nu", PNum c); ("bandwidth", PNum b)].

(** The blind detector of a phase-switch status as the spec names it:
    index 3 for ['0101'], index 0 for ['0110']. *)
Definition blind_index (pss : string) : option nat :=
  if String.eqb pss "0101" then Some 3%nat
  else if String.eqb pss "0110" then Some 0%nat
  else None.

(** A file row with its blind entry set to 0. *)
Definition zero_blind (pss : string) (row : list Q) : list Q :=
  match blind_index pss with Some k => <[k := 0]> row | None => row end.

(** Whether entry [i] of file [j] is the blind detector of that file. *)
Definition blind_at (PSStatus : list string) (j i : nat) : bool :=
  match PSStatus !! j with
  | Some pss => bool_decide (blind_index pss = Some i)
  | None => false
  end.

(** The per-detector dict of one file, read off rows [rc] and [rb]. *)
Definition det_dict (rc rb : list Q) : list (string * pyval) :=
  zip_with (fun i nam => (strip_slash nam, det_entry (nthQ rc i) (nthQ rb i)))
    (seq 0 (length NAMING_CONVENTION)) NAMING_CONVENTION.

(** ** create_report (reports.py, lines 12-65) *)

(** The file system as a map from paths to contents.  Directories are not
    modelled: the docstring requires [output_path] to exist. *)
Abbreviation FS := (gmap string string).













(** ** Properties stated by the spec *)

(** The first smallest element of a list, at index [i]. *)
Definition first_min (l : list Q) (i : nat) : Prop :=
  exists r, l !! i = Some r /\
    (forall j r', l !! j = Some r' -> r <= r') /\
    (forall j r', (j < i)%nat -> l !! j = Some r' -> r < r').

(** Successive differences equal within numpy's [allclose] tolerance. *)
Definition uniform_steps (nu : list Q) : Prop :=
  forall d0 i d, diffs nu !! 0%nat = Some d0 -> diffs nu !! i = Some d ->
    Qabs (d - d0) <= atol + rtol * Qabs d0.

(** The binning as the spec words it: the rows kept by the mask [nu > 0],
    the samples of one frequency [x] in that order, a run trimmed by [rej]
    samples at each end, and a frequency whose samples form one contiguous
    run longer than [2 * rej]. *)
Definition kept_rows (nu : list Q) (data : list (list Q)) : list (list Q) :=
  map snd (filter (fun p => positive p.1) (zip nu data)).

Definition run_of (x : Q) (fnu : list Q) (fdata : list (list Q)) : list (list Q) :=
  map snd (filter (fun p => Qeq_bool p.1 x) (zip fnu fdata)).

Definition trim {A} (rej : nat) (r : list A) : list A :=
  firstn (length r - 2 * rej) (skipn rej r).

Definition contiguous_run (x : Q) (l : list Q) (rej : nat) : Prop :=
  exists pre mid post, l = pre ++ mid ++ post /\
    Forall (fun y => ~ y == x) pre /\ Forall (fun y => y == x) mid /\
    Forall (fun y => ~ y == x) post /\ (2 * rej < length mid)%nat.

(** Row [j] of a per-file array exists and has the 4 detector entries
    the inner loop of build_dict_from_results reads. *)
Definition row_fits (a : list (list Q)) (j : nat) : bool :=
  match a !! j with Some r => (4 <=? length r)%nat | None => false end.

(** Every file [j] of [PSStatus] has such a row in both arrays. *)
Definition dims_fit (PSStatus : list string) (cn bw : list (list Q)) : bool :=
  forallb (fun j => row_fits cn j && row_fits bw j) (seq 0 (length PSStatus)).

(** The power of every detector through one gain [c] and one offset [k]. *)
Definition affine_data (c k : Q) (data : list (list Q)) : list (list Q) :=
  map (map (fun x => c * x + k)) data.

(** A numpy 2-D array: every row has [ncols data] entries. *)
Definition rectangular (data : list (list Q)) : Prop :=
  Forall (fun r => length r = ncols data) data.


(** Results of get_central_nu_bandwidth related by a shift [k] of the
    central frequencies, with the same bandwidths. *)
Definition cnb_shifted (k : Q) (r1 r2 : outcome cnb_result) : Prop :=
  match r1, r2 with
  | Ok (Scalars c1 b1), Ok (Scalars c2 b2) => c1 == c2 + k /\ b1 == b2
  | Ok (Arrays cs1 bs1), Ok (Arrays cs2 bs2) =>
      Forall2 (fun c1 c2 => c1 == c2 + k) cs1 cs2 /\ Forall2 Qeq bs1 bs2
  | Raise e1, Raise e2 => e1 = e2
  | Nan, Nan => True
  | _, _ => False
  end.

(** ** Concrete inputs *)

(** One row of a combined normalised matrix: -1, -0.9, ..., 0. *)
Definition ex_norm_row : list Q :=
  map (fun i => Q_of_nat i / 10 - 1) (seq 0 11).
(** Per-file central frequencies 40, 41, ..., 50. *)
Definition ex_cf : list Q := map (fun i => 40 + Q_of_nat i) (seq 0 11).

(** A 4-detector matrix whose column 1 is flat. *)
Definition ex_flat_col1 : list (list Q) :=
  [[0; 5; 1; 3]; [-2; 5; 4; 0]; [-4; 5; 2; 6]; [-1; 5; 7; 2]].

(** A uniform frequency grid [a, a + delta, ..., a + (n-1) delta] and a
    single power column equal to [v] on the [k] grid points starting at
    index [lo] and 0 elsewhere. *)
Definition grid (a delta : Q) (n : nat) : list Q :=
  map (fun i => a + Q_of_nat i * delta) (seq 0 n).
Definition window_column (lo k : nat) (v : Q) (n : nat) : list (list Q) :=
  map (fun i => [if (lo <=? i)%nat && (i <? lo + k)%nat then v else 0]) (seq 0 n).

(** Two files, one of each phase-switch status, and their per-detector
    central frequencies and bandwidths. *)
Definition ex_PSStatus : list string := ["0101"; "0110"].
Definition ex_central_nu_det : list (list Q) := [[40; 41; 42; 43]; [44; 45; 46; 47]].
Definition ex_bandwidth_det : list (list Q) := [[5; 6; 7; 8]; [9; 10; 11; 12]].

(** An acquisition whose frequencies are all at the off sentinel, with no
    power anywhere. *)
Definition ex_off_nu : list Q := [-1; -1].
Definition ex_zero_data : list (list Q) := [[0; 0; 0; 0]; [0; 0; 0; 0]].

(** An acquisition with one positive frequency, 40 GHz, framed by samples
    at the off sentinel, with no power anywhere. *)
Definition ex_single_nu : list Q := [-1; 40; 40; -1].
Definition ex_single_data : list (list Q) :=
  [[0; 0; 0; 0]; [0; 0; 0; 0]; [0; 0; 0; 0]; [0; 0; 0; 0]].

(** The old binned sweep of four frequencies for four detectors: square
    data. *)
Definition ex_square_nu : list Q := [38; 39; 40; 41].
Definition ex_square_data : list (list Q) :=
  [[0; -1; -3; -4]; [0; -2; -3; 1]; [0; -3; -2; 2]; [0; -1; -2; -5]].

(** An acquisition with off-sentinel rows in both halves and a sweep from
    38 to 50 GHz in between. *)
Definition ex_sweep_nu : list Q := [-1; 38; 44; 50; -1].
Definition ex_sweep_data : list (list Q) :=
  [[0; 0; 0; 0]; [-3; -5; -2; -7]; [-1; -4; -6; -2]; [-2; -8; -1; -3]; [0; 0; 0; 0]].

(** Binned data of one sweep over five frequencies: detector 0 flat
    (blind), the others vary. *)
Definition ex_new_nu : list Q := [38; 39; 40; 41; 42].
Definition ex_new_data : list (list Q) :=
  [[-1; -1; -3; -4]; [-1; -2; -3; 1]; [-1; -3; -2; 2]; [-1; -1; -2; -5]; [-1; -2; -1; -3]].

(** A sweep with two frequency steps of three samples each, framed by
    samples at [nu = -1]; two detectors. *)
Definition ex_bin_nu : list Q := [-1; 3; 3; 3; 2; 2; 2; -1].
Definition ex_bin_data : list (list Q) :=
  [[0; 0]; [1; 10]; [2; 20]; [6; 60]; [4; 40]; [5; 50]; [9; 90]; [0; 0]].


(** * Lemmas *)

Lemma length_insert_sorted x l : length (insert_sorted x l) = S (length l).
Proof. induction l as [|y l IH]; simpl; [done|]. destruct (Qle_bool x y); simpl; auto. Qed.

Lemma length_sort l : length (sort l) = length l.
Proof. induction l; simpl; [done|]. by rewrite length_insert_sorted, IHl. Qed.

Lemma mapM_ok {A B} (f : A -> outcome B) (l : list A) :
  (forall x, In x l -> exists y, f x = Ok y) ->
  exists ys, mapM f l = Ok ys /\ length ys = length l.
Proof.
  induction l as [|x l IH]; intros Hf; simpl; [by exists []|].
  destruct (Hf x (or_introl eq_refl)) as [y Hy].
  destruct IH as [ys [Hys Hlen]]; [intros; apply Hf; by right|].
  exists (y :: ys). rewrite Hy; simpl. rewrite Hys; simpl. auto.
Qed.

Lemma percentile_ok a q : a <> [] -> exists r, percentile a q = Ok r.
Proof.
  intros Ha. unfold percentile. rewrite length_sort.
  destruct a; [done|]. simpl. eauto.
Qed.

Lemma argmin_from_first_min (l P : list Q) (best : nat) (bv : Q) :
  P !! best = Some bv ->
  (forall j r', P !! j = Some r' -> bv <= r') ->
  (forall j r', (j < best)%nat -> P !! j = Some r' -> bv < r') ->
  first_min (P ++ l) (argmin_from l (length P) best bv).
Proof.
  revert P best bv. induction l as [|x l IH]; intros P best bv Hb Hle Hlt; simpl.
  - rewrite app_nil_r. exists bv. auto.
  - replace (P ++ x :: l) with ((P ++ [x]) ++ l) by by rewrite <- app_assoc.
    destruct (Qle_bool bv x) eqn:E; simpl.
    + apply Qle_bool_iff in E.
      replace (S (length P)) with (length (P ++ [x])) by (rewrite length_app; simpl; lia).
      apply IH.
      * by apply lookup_app_l_Some.
      * intros j r' Hj. apply lookup_snoc_Some in Hj as [[_ Hj]|[-> <-]]; eauto.
      * intros j r' Hj Hl. apply lookup_snoc_Some in Hl as [[_ Hl]|[-> <-]]; eauto.
        apply lookup_lt_Some in Hb. lia.
    + assert (Hx : x < bv).
      { apply Qnot_le_lt. intros H. apply Qle_bool_iff in H. congruence. }
      replace (S (length P)) with (length (P ++ [x])) by (rewrite length_app; simpl; lia).
      apply IH.
      * by apply lookup_snoc_Some; right.
      * intros j r' Hj. apply lookup_snoc_Some in Hj as [[_ Hj]|[-> <-]].
        -- specialize (Hle _ _ Hj). lra.
        -- lra.
      * intros j r' Hj Hl. apply lookup_snoc_Some in Hl as [[_ Hl]|[-> <-]]; [|lia].
        specialize (Hle _ _ Hl). lra.
Qed.

Lemma argmin_first_min (l : list Q) :
  l <> [] -> exists i, argmin l = Ok i /\ first_min l i.
Proof.
  destruct l as [|x l]; [done|]. intros _. eexists; split; [reflexivity|].
  change (x :: l) with ([x] ++ l).
  apply (argmin_from_first_min l [x] 0 x); [done| |].
  - intros j r' Hj. apply list_lookup_singleton_Some in Hj as [_ <-]. lra.
  - intros j r' Hj. lia.
Qed.

Lemma column_length rows i : length (column rows i) = length rows.
Proof. unfold column. by rewrite length_map. Qed.

Lemma percentile_axis0_cons data q : data <> [] ->
  percentile_axis0 data q = mapM (fun i => percentile (column data i) q) (seq 0 (ncols data)).
Proof. destruct data; [done|reflexivity]. Qed.

Lemma var_range_ok (data : list (list Q)) :
  data <> [] -> ncols data = 4%nat ->
  exists ranges, var_range data = Ok ranges /\ length ranges = 4%nat.
Proof.
  intros Hne Hc. unfold var_range. rewrite !percentile_axis0_cons by done. rewrite Hc.
  assert (Hcol : forall q, exists ps, mapM (fun i => percentile (column data i) q) (seq 0 4) = Ok ps
                                     /\ length ps = length (seq 0 4)).
  { intros q. apply mapM_ok. intros i _. apply percentile_ok.
    intros E. apply (f_equal length) in E. rewrite column_length in E.
    destruct data; [done|]. discriminate. }
  destruct (Hcol 95) as [p95 [H95 L95]]. destruct (Hcol 5) as [p5 [H5 L5]].
  rewrite H95, H5. eexists; split; [reflexivity|].
  rewrite length_zip_with, L95, L5. done.
Qed.

Lemma length_diffs nu : length (diffs nu) = (length nu - 1)%nat.
Proof. unfold diffs. rewrite length_zip_with. destruct nu; simpl; lia. Qed.

(** The tolerance test of [np.allclose(diffs, diffs[0])], pointwise. *)
Lemma allclose_spec (a : list Q) (b : Q) :
  allclose a b = true <->
  (forall i d, a !! i = Some d -> Qabs (d - b) <= atol + rtol * Qabs b).
Proof.
  unfold allclose. rewrite forallb_forall. split.
  - intros H i d Hd. apply Qle_bool_iff, H.
    apply list_elem_of_In, list_elem_of_lookup. eauto.
  - intros H x Hx. apply Qle_bool_iff.
    apply list_elem_of_In, list_elem_of_lookup in Hx as [i Hi]. eauto.
Qed.

(** * Claims *)

(** C1 (code_bug): the aggregation step of main takes half the spread
    between the 97.7th and the 2.7th percentiles, not the 2.3rd: on the
    combined row -1, -0.9, ..., 0 and on central-frequency and bandwidth
    arrays 40, 41, ..., 50 the code's final-band error is 0.475 and its
    central-frequency and bandwidth errors are 4.75, where the 2.3 / 97.7
    pair gives 0.477 and 4.77. *)
Theorem main_half_spread_percentiles :
  match aggregate_errors [ex_norm_row] ex_cf ex_cf,
        aggregate_errors_spec [ex_norm_row] ex_cf ex_cf with
  | Ok (b, c, w), Ok (b', c', w') =>
      nthQ b 0 == 19 # 40 /\ c == 19 # 4 /\ w == 19 # 4 /\
      nthQ b' 0 == 477 # 1000 /\ c' == 477 # 100 /\ w' == 477 # 100 /\
      ~ (19 # 40 == 477 # 1000) /\ ~ (19 # 4 == 477 # 100)
  | _, _ => False
  end.
Proof. vm_compute. repeat split; discriminate. Qed.

(** C2: get_central_nu_bandwidth raises the "frequency steps are not
    uniform" ValueError exactly when the axis has at least two points and
    its successive differences are not all equal, within numpy's [allclose]
    tolerance, to the first one; the check precedes any computation, so
    the call then returns nothing else. *)
Theorem get_central_nu_bandwidth_nonuniform (nu : list Q) (data : list (list Q)) :
  get_central_nu_bandwidth nu data = Raise (ValueError msg_not_uniform) <->
  (2 <= length nu)%nat /\ ~ uniform_steps nu.
Proof.
  unfold get_central_nu_bandwidth, uniform_steps.
  pose proof (length_diffs nu) as Hl.
  destruct (diffs nu) as [|d0 ds] eqn:Hd.
  - split; [discriminate|]. intros [H _]. simpl in Hl. lia.
  - destruct (allclose (d0 :: ds) d0) eqn:Ha; simpl.
    + split.
      * intros H. exfalso. revert H.
        repeat case_match; discriminate.
      * intros [_ Hn]. exfalso. apply Hn. intros d0' i d H0 Hi.
        simpl in H0. injection H0 as <-. by apply (proj1 (allclose_spec (d0 :: ds) d0) Ha i d).
    + split; [intros _; split|done].
      * simpl in Hl. lia.
      * intros Hu. apply not_true_iff_false in Ha. apply Ha, allclose_spec.
        intros i d Hi. by apply (Hu d0 i d).
Qed.

(** C5, counterexample: when the smallest 95th-minus-5th percentile range
    is that of column 1, find_blind_channel returns nothing: [pss] is never
    assigned and the function raises. *)
Lemma find_blind_channel_flat_col1 :
  (vr ← var_range ex_flat_col1; argmin vr) = Ok 1%nat /\
  find_blind_channel ex_flat_col1 = Raise (UnboundLocalError "pss").
Proof. split; vm_compute; reflexivity. Qed.

(** C5, as the code does it: for a non-empty 4-column matrix,
    find_blind_channel takes the first column whose 95th-minus-5th
    percentile range is smallest; it returns (0, '0110') when that is
    column 0, (3, '0101') when it is column 3, and raises for column 1
    or 2. *)
Theorem find_blind_channel_first_min (data : list (list Q)) :
  data <> [] -> Forall (fun r => length r = 4%nat) data ->
  exists ranges i, var_range data = Ok ranges /\ first_min ranges i /\
    find_blind_channel data =
      (if Nat.eqb i 0 then Ok (0%nat, "0110")
       else if Nat.eqb i 3 then Ok (3%nat, "0101")
       else Raise (UnboundLocalError "pss")).
Proof.
  intros Hne Hrows.
  assert (Hc : ncols data = 4%nat).
  { destruct data as [|r rs]; [done|]. by inversion Hrows. }
  destruct (var_range_ok data Hne Hc) as [ranges [Hvr Hlen]].
  destruct (argmin_first_min ranges) as [i [Hi Hmin]].
  { intros ->. discriminate. }
  exists ranges, i. split; [done|]. split; [done|].
  unfold find_blind_channel. rewrite Hvr. simpl. rewrite Hi. simpl.
  destruct (Nat.eqb i 0) eqn:E0; [apply Nat.eqb_eq in E0; by subst|].
  destruct (Nat.eqb i 3) eqn:E3; [apply Nat.eqb_eq in E3; by subst|done].
Qed.

Lemma find_blind_channel_first_min_witness :
  (ex_flat_col1 <> [] /\ Forall (fun r => length r = 4%nat) ex_flat_col1) /\
  exists ranges i, var_range ex_flat_col1 = Ok ranges /\ first_min ranges i /\
    find_blind_channel ex_flat_col1 =
      (if Nat.eqb i 0 then Ok (0%nat, "0110")
       else if Nat.eqb i 3 then Ok (3%nat, "0101")
       else Raise (UnboundLocalError "pss")).
Proof.
  assert (H : ex_flat_col1 <> [] /\ Forall (fun r => length r = 4%nat) ex_flat_col1).
  { split; [discriminate|repeat constructor]. }
  split; [exact H|].
  exact (find_blind_channel_first_min ex_flat_col1 (proj1 H) (proj2 H)).
Defined.

(** ** Sums over the rectangular window *)

Lemma qsum_app l1 l2 : qsum (l1 ++ l2) == qsum l1 + qsum l2.
Proof.
  induction l1 as [|x l1 IH]; simpl; [ring|]. rewrite IH. ring.
Qed.

Lemma qsum_map_ext_in {A} (f g : A -> Q) (l : list A) :
  (forall x, In x l -> f x == g x) -> qsum (map f l) == qsum (map g l).
Proof.
  induction l as [|x l IH]; intros H; simpl; [reflexivity|].
  rewrite (H x (or_introl eq_refl)), IH; [reflexivity|]. intros; apply H; by right.
Qed.

Lemma Q_of_nat_S n : Q_of_nat (S n) == Q_of_nat n + 1.
Proof. unfold Q_of_nat. rewrite Nat2Z.inj_succ, <- Z.add_1_r, inject_Z_plus. reflexivity. Qed.

Lemma Q_of_nat_add m n : Q_of_nat (m + n) == Q_of_nat m + Q_of_nat n.
Proof. unfold Q_of_nat. rewrite Nat2Z.inj_add, inject_Z_plus. reflexivity. Qed.

Lemma Q_of_nat_pos n : (0 < n)%nat -> 0 < Q_of_nat n.
Proof. intros H. unfold Q_of_nat, Qlt. simpl. lia. Qed.

Lemma qsum_affine_seq (alpha beta : Q) (s k : nat) :
  qsum (map (fun i => alpha + beta * Q_of_nat i) (seq s k)) ==
  Q_of_nat k * alpha + beta * (Q_of_nat k * Q_of_nat s + Q_of_nat k * (Q_of_nat k - 1) / 2).
Proof.
  revert s. induction k as [|k IH]; intros s; simpl.
  - unfold Q_of_nat. simpl. field.
  - rewrite IH, !Q_of_nat_S. field.
Qed.

Lemma zip_with_map_same {A B C D} (h : B -> C -> D) (f : A -> B) (g : A -> C) (l : list A) :
  zip_with h (map f l) (map g l) = map (fun x => h (f x) (g x)) l.
Proof. induction l; simpl; congruence. Qed.

(** A sum over [seq 0 n] split at the window [lo, lo + k), where the
    summand is [inside] and 0 outside. *)
Lemma qsum_window (lo k n : nat) (f inside : nat -> Q) :
  (lo + k <= n)%nat ->
  (forall i, (i < lo \/ lo + k <= i)%nat -> f i == 0) ->
  (forall i, (lo <= i < lo + k)%nat -> f i == inside i) ->
  qsum (map f (seq 0 n)) == qsum (map inside (seq lo k)).
Proof.
  intros Hn Hout Hin.
  replace n with (lo + (k + (n - lo - k)))%nat by lia.
  rewrite !seq_app, !map_app, !qsum_app.
  rewrite (qsum_map_ext_in f (fun _ => 0) (seq 0 lo)).
  2:{ intros i Hi. apply in_seq in Hi. apply Hout. lia. }
  rewrite (qsum_map_ext_in f (fun _ => 0) (seq (0 + lo + k) (n - lo - k))).
  2:{ intros i Hi. apply in_seq in Hi. apply Hout. lia. }
  rewrite (qsum_map_ext_in f inside (seq (0 + lo) k)).
  2:{ intros i Hi. apply in_seq in Hi. apply Hin. lia. }
  replace (0 + lo)%nat with lo by lia.
  assert (Z0 : forall l : list nat, qsum (map (fun _ => 0) l) == 0).
  { induction l as [|x l IH]; simpl; [reflexivity|]. rewrite IH. reflexivity. }
  rewrite !Z0. ring.
Qed.

Lemma lookup_map_seq {A} (f : nat -> A) s n i :
  map f (seq s n) !! i = if (i <? n)%nat then Some (f (s + i)%nat) else None.
Proof.
  change (map f (seq s n)) with (f <$> seq s n). rewrite list_lookup_fmap.
  destruct (i <? n)%nat eqn:E.
  - apply Nat.ltb_lt in E. by rewrite lookup_seq_lt.
  - apply Nat.ltb_ge in E. by rewrite lookup_seq_ge.
Qed.

Lemma nthQ_grid a delta n i : (i < n)%nat -> nthQ (grid a delta n) i = a + Q_of_nat i * delta.
Proof.
  intros Hi. unfold nthQ, grid. rewrite nth_lookup, lookup_map_seq.
  destruct (i <? n)%nat eqn:E; [done|]. apply Nat.ltb_ge in E. lia.
Qed.

Lemma diffs_grid a delta n i d : diffs (grid a delta n) !! i = Some d -> d == delta.
Proof.
  unfold diffs. rewrite lookup_zip_with.
  destruct n as [|n]; [done|]. unfold grid. simpl tail.
  rewrite <- seq_shift, map_map, !lookup_map_seq.
  destruct (i <? n)%nat eqn:E1; [|done].
  destruct (i <? S n)%nat eqn:E2; [|done]. simpl.
  intros [= <-]. rewrite Q_of_nat_S. ring.
Qed.

Lemma nthQ_singleton x : nthQ [x] 0 = x.
Proof. done. Qed.

Lemma column_window lo k v n :
  column (window_column lo k v n) 0 =
  map (fun i => if (lo <=? i)%nat && (i <? lo + k)%nat then v else 0) (seq 0 n).
Proof. unfold column, window_column. by rewrite map_map. Qed.

(** C6: on a uniform grid [a + i delta] of [n >= 2] points, a power column
    equal to a non-zero [v] on the [k >= 1] points from index [lo] and 0
    elsewhere gives, through [sum(data nu) / sum(data)] and
    [sum(data)^2 step / sum(data^2)], the midpoint of the window's first and
    last frequencies as central frequency and [k delta] as bandwidth, which
    is within one grid step of the window's width. *)
Theorem get_central_nu_bandwidth_rectangle (a delta v : Q) (lo k n : nat) :
  (2 <= n)%nat -> (1 <= k)%nat -> (lo + k <= n)%nat -> ~ v == 0 ->
  exists c b,
    get_central_nu_bandwidth (grid a delta n) (window_column lo k v n) = Ok (Scalars c b) /\
    c == (nthQ (grid a delta n) lo + nthQ (grid a delta n) (lo + k - 1)) / 2 /\
    b == Q_of_nat k * delta /\
    Qabs (b - (nthQ (grid a delta n) (lo + k - 1) - nthQ (grid a delta n) lo)) <= Qabs delta.
Proof.
  intros Hn Hk Hw Hv.
  set (nu := grid a delta n). set (data := window_column lo k v n).
  assert (HL : length nu = n) by (unfold nu, grid; by rewrite length_map, length_seq).
  assert (Hd : exists d0 ds, diffs nu = d0 :: ds).
  { pose proof (length_diffs nu) as Hl. rewrite HL in Hl.
    destruct (diffs nu) as [|d0 ds]; [simpl in Hl; lia|]. eauto. }
  destruct Hd as [d0 [ds Hd]].
  assert (Hd0 : d0 == delta).
  { apply (diffs_grid a delta n 0). fold nu. by rewrite Hd. }
  assert (Hac : allclose (d0 :: ds) d0 = true).
  { apply allclose_spec. intros i d Hi. rewrite <- Hd in Hi. apply diffs_grid in Hi.
    assert (E : d - d0 == 0) by (rewrite Hi, Hd0; ring). rewrite E.
    assert (0 <= rtol * Qabs d0) by (apply Qmult_le_0_compat; [discriminate|apply Qabs_nonneg]).
    change (Qabs 0) with 0. unfold atol. lra. }
  assert (HN : length data = n) by (unfold data, window_column; by rewrite length_map, length_seq).
  assert (HM : ncols data = 1%nat).
  { unfold data, window_column. destruct n; [lia|]. done. }
  assert (Hres : get_central_nu_bandwidth nu data =
                 Ok (Scalars (central_of (column data 0) nu) (bandwidth_of (column data 0) d0))).
  { unfold get_central_nu_bandwidth. rewrite Hd, Hac. simpl negb. cbv zeta.
    rewrite HN, HL, HM.
    replace (Nat.eqb 1 n) with false by (symmetry; apply Nat.eqb_neq; lia).
    rewrite Nat.eqb_refl. reflexivity. }
  rewrite Hres. eexists _, _. split; [reflexivity|].
  unfold data. rewrite column_window.
  set (w := fun i => if (lo <=? i)%nat && (i <? lo + k)%nat then v else 0).
  assert (Win : forall i, (lo <= i < lo + k)%nat -> w i = v).
  { intros i Hi. unfold w. replace ((lo <=? i)%nat && (i <? lo + k)%nat) with true; [done|].
    symmetry. apply andb_true_intro. split; [apply Nat.leb_le|apply Nat.ltb_lt]; lia. }
  assert (Wout : forall i, (i < lo \/ lo + k <= i)%nat -> w i = 0).
  { intros i Hi. unfold w. replace ((lo <=? i)%nat && (i <? lo + k)%nat) with false; [done|].
    symmetry. apply andb_false_iff. destruct Hi; [left; apply Nat.leb_gt|right; apply Nat.ltb_ge]; lia. }
  assert (S1 : qsum (map w (seq 0 n)) == Q_of_nat k * v).
  { rewrite (qsum_window lo k n w (fun _ => v + 0 * Q_of_nat 0)); [|done| |].
    - rewrite (qsum_map_ext_in (fun _ => v + 0 * Q_of_nat 0) (fun i => v + 0 * Q_of_nat i)) by (intros; ring).
      rewrite qsum_affine_seq. ring.
    - intros i Hi. rewrite Wout by done. reflexivity.
    - intros i Hi. rewrite Win by done. ring. }
  assert (S2 : qsum (zip_with Qmult (map w (seq 0 n)) nu) ==
               v * (Q_of_nat k * a + delta * (Q_of_nat k * Q_of_nat lo + Q_of_nat k * (Q_of_nat k - 1) / 2))).
  { unfold nu, grid. rewrite zip_with_map_same.
    rewrite (qsum_window lo k n _ (fun i => v * a + v * delta * Q_of_nat i)); [|done| |].
    - rewrite qsum_affine_seq. ring.
    - intros i Hi. rewrite Wout by done. ring.
    - intros i Hi. rewrite Win by done. ring. }
  assert (S3 : qsum (map (fun x => x ^ 2) (map w (seq 0 n))) == Q_of_nat k * (v * v)).
  { rewrite map_map.
    rewrite (qsum_window lo k n _ (fun i => v * v + 0 * Q_of_nat i)); [|done| |].
    - rewrite qsum_affine_seq. ring.
    - intros i Hi. rewrite Wout by done. reflexivity.
    - intros i Hi. rewrite Win by done. simpl. ring. }
  assert (Kpos : 0 < Q_of_nat k) by (apply Q_of_nat_pos; lia).
  assert (Knz : ~ Q_of_nat k == 0) by (intros E; rewrite E in Kpos; discriminate).
  unfold nu. rewrite !nthQ_grid by lia.
  assert (Hlast : Q_of_nat (lo + k - 1) == Q_of_nat lo + Q_of_nat k - 1).
  { replace (lo + k - 1)%nat with (lo + (k - 1))%nat by lia.
    rewrite Q_of_nat_add. replace k with (S (k - 1)) at 2 by lia. rewrite Q_of_nat_S. ring. }
  assert (Hb : bandwidth_of (map w (seq 0 n)) d0 == Q_of_nat k * delta).
  { unfold bandwidth_of. rewrite S1, S3, Hd0. simpl. field. split; assumption. }
  split; [|split; [exact Hb|]].
  - unfold central_of. fold nu. rewrite S1, S2, Hlast. field. split; assumption.
  - rewrite Hb, Hlast.
    assert (E : Q_of_nat k * delta - (a + (Q_of_nat lo + Q_of_nat k - 1) * delta - (a + Q_of_nat lo * delta)) == delta) by ring.
    rewrite E. apply Qle_refl.
Qed.

Lemma get_central_nu_bandwidth_rectangle_witness :
  ((2 <= 61)%nat /\ (1 <= 21)%nat /\ (20 + 21 <= 61)%nat /\ ~ (-3) == 0) /\
  exists c b,
    get_central_nu_bandwidth (grid 38 (1 # 5) 61) (window_column 20 21 (-3) 61) = Ok (Scalars c b) /\
    c == (nthQ (grid 38 (1 # 5) 61) 20 + nthQ (grid 38 (1 # 5) 61) (20 + 21 - 1)) / 2 /\
    b == Q_of_nat 21 * (1 # 5) /\
    Qabs (b - (nthQ (grid 38 (1 # 5) 61) (20 + 21 - 1) - nthQ (grid 38 (1 # 5) 61) 20)) <= Qabs (1 # 5).
Proof.
  assert (H : (2 <= 61)%nat /\ (1 <= 21)%nat /\ (20 + 21 <= 61)%nat /\ ~ (-3) == 0).
  { repeat split; try lia. discriminate. }
  split; [exact H|].
  destruct H as [H1 [H2 [H3 H4]]].
  exact (get_central_nu_bandwidth_rectangle 38 (1 # 5) (-3) 20 21 61 H1 H2 H3 H4).
Defined.

(** ** Normalisation in AnalyzeBandTest *)

Lemma qmin_spec (l : list Q) (m : Q) :
  qmin l = Ok m -> In m l /\ (forall x, In x l -> m <= x).
Proof.
  destruct l as [|x l]; simpl; [discriminate|]. intros [= <-].
  assert (H : forall acc, In (fold_left Qmin l acc) (acc :: l) /\
                          forall y, In y (acc :: l) -> fold_left Qmin l acc <= y).
  { induction l as [|z l IH]; intros acc; simpl.
    - split; [by left|]. intros y [<-|[]]. apply Qle_refl.
    - destruct (IH (Qmin acc z)) as [Hin Hle]. split.
      + destruct Hin as [E|Hin]; [|by right; right].
        rewrite <- E. unfold Qmin, GenericMinMax.gmin.
        destruct (acc ?= z); [by left|by left|by right; left].
      + intros y Hy. specialize (Hle (Qmin acc z) (or_introl eq_refl)) as H1.
        destruct Hy as [<-|[<-|Hy]].
        * eapply Qle_trans; [exact H1|apply Q.le_min_l].
        * eapply Qle_trans; [exact H1|apply Q.le_min_r].
        * apply Hle. by right. }
  apply H.
Qed.

Lemma mapM_lookup {A B} (f : A -> outcome B) (l : list A) (ys : list B) p x :
  mapM f l = Ok ys -> l !! p = Some x -> exists y, ys !! p = Some y /\ f x = Ok y.
Proof.
  revert ys p. induction l as [|z l IH]; intros ys p Hm Hp; [done|].
  simpl in Hm. destruct (f z) as [y| |] eqn:Hf; simpl in Hm; try discriminate.
  destruct (mapM f l) as [ys'| |] eqn:Hl; simpl in Hm; try discriminate. injection Hm as <-.
  destruct p as [|p]; simpl in Hp.
  - injection Hp as <-. eauto.
  - destruct (IH ys' p eq_refl Hp) as [y' [H1 H2]]. simpl. eauto.
Qed.

Lemma clamp_nonpos (rows : list (list Q)) (row : list Q) t i :
  clamp_positive rows !! t = Some row -> nthQ row i <= 0.
Proof.
  unfold clamp_positive. intros Ht.
  change (map (map ?f) rows) with (map f <$> rows) in Ht.
  apply list_lookup_fmap_Some in Ht as [row0 [-> _]].
  unfold nthQ. rewrite nth_lookup.
  change (map ?f row0) with (f <$> row0). rewrite list_lookup_fmap.
  destruct (row0 !! i) as [x|]; simpl; [|apply Qle_refl].
  unfold positive. destruct (Qle_bool x 0) eqn:E; simpl; [|apply Qle_refl].
  by apply Qle_bool_iff.
Qed.

Lemma column_lookup rows i t row : rows !! t = Some row -> column rows i !! t = Some (nthQ row i).
Proof.
  intros H. unfold column. change (map ?f rows) with (f <$> rows).
  rewrite list_lookup_fmap, H. done.
Qed.

Lemma In_column rows i x : In x (column rows i) -> exists t row, rows !! t = Some row /\ nthQ row i = x.
Proof.
  intros Hx. apply list_elem_of_In, list_elem_of_lookup in Hx as [t Ht].
  unfold column in Ht. change (map ?f rows) with (f <$> rows) in Ht.
  apply list_lookup_fmap_Some in Ht as [row [-> Hrow]]. eauto.
Qed.

Lemma div_abs_range (x mn : Q) : mn <= x -> x <= 0 -> ~ mn == 0 -> -1 <= x / Qabs mn <= 0.
Proof.
  intros H1 H2 H3.
  assert (Hn : mn < 0) by (apply Qle_lt_or_eq in H1 as [H|H]; [lra|]; lra).
  rewrite Qabs_neg by lra.
  assert (Hp : 0 < - mn) by lra.
  split.
  - apply (Qmult_le_r _ _ (- mn)); [exact Hp|].
    unfold Qdiv. rewrite <- Qmult_assoc, (Qmult_comm (/ _)), Qmult_inv_r by lra. lra.
  - apply (Qmult_le_r _ _ (- mn)); [exact Hp|].
    unfold Qdiv. rewrite <- Qmult_assoc, (Qmult_comm (/ _)), Qmult_inv_r by lra. lra.
Qed.

(** C4: after positive values are clamped to 0 and each kept column is
    divided by the absolute value of its minimum, every value of a kept
    column whose minimum is not 0 lies in [-1, 0], and the column holds
    exactly -1 at a row where the clamped column reaches its minimum. *)
Theorem analyze_binned_norm_range (new_nu : list Q) (new_data0 : list (list Q)) (r : band_result) :
  analyze_binned new_nu new_data0 = Ok r ->
  exists idx_blind,
    find_blind_channel (clamp_positive new_data0) = Ok (idx_blind, res_pss r) /\
    forall p i mn,
      kept_columns idx_blind !! p = Some i ->
      qmin (column (clamp_positive new_data0) i) = Ok mn -> ~ mn == 0 ->
      (forall t row, res_norm_data r !! t = Some row ->
         exists x, row !! p = Some x /\ -1 <= x <= 0) /\
      (exists t row x, res_norm_data r !! t = Some row /\ row !! p = Some x /\ x == -1 /\
         column (clamp_positive new_data0) i !! t = Some mn).
Proof.
  unfold analyze_binned.
  set (clamped := clamp_positive new_data0).
  destruct (get_central_nu_bandwidth new_nu clamped) as [cnb| |]; simpl; try discriminate.
  destruct (find_blind_channel clamped) as [[idx pss]| |] eqn:Hf; simpl; try discriminate.
  destruct (as_array cnb) as [cf bw].
  destruct (negb (length cf =? 4)%nat); [discriminate|].
  destruct (negb (length bw =? 4)%nat); [discriminate|].
  destruct (negb (ncols clamped =? 4)%nat); [discriminate|].
  destruct (mapM (fun i => qmin (column clamped i)) (kept_columns idx)) as [mins| |] eqn:Hm;
    simpl; try discriminate.
  intros [= <-]. simpl.
  exists idx. split; [done|]. intros p i mn Hp Hq Hnz.
  destruct (mapM_lookup _ _ _ p i Hm Hp) as [mn' [Hmn' Hq']].
  rewrite Hq in Hq'. injection Hq' as <-.
  destruct (qmin_spec _ _ Hq) as [Hin Hle].
  assert (Hrow : forall t row0, clamped !! t = Some row0 ->
            exists row, map (fun row => zip_with (fun i mn => nthQ row i / Qabs mn) (kept_columns idx) mins) clamped !! t = Some row /\
                        row !! p = Some (nthQ row0 i / Qabs mn)).
  { intros t row0 Ht. eexists; split.
    - change (map ?f clamped) with (f <$> clamped). rewrite list_lookup_fmap, Ht. reflexivity.
    - rewrite lookup_zip_with, Hp, Hmn'. reflexivity. }
  split.
  - intros t row Ht.
    change (map ?f clamped) with (f <$> clamped) in Ht.
    apply list_lookup_fmap_Some in Ht as [row0 [-> Ht0]].
    exists (nthQ row0 i / Qabs mn). split.
    + rewrite lookup_zip_with, Hp, Hmn'. reflexivity.
    + apply div_abs_range; [|eapply clamp_nonpos; exact Ht0|exact Hnz].
      apply Hle. apply list_elem_of_In, list_elem_of_lookup. exists t.
      by apply column_lookup.
  - destruct (In_column _ _ _ Hin) as [t [row0 [Ht0 Heq]]].
    destruct (Hrow t row0 Ht0) as [row [Hr Hx]].
    exists t, row, (nthQ row0 i / Qabs mn). split; [exact Hr|]. split; [exact Hx|]. split.
    + rewrite Heq.
      assert (Hneg : mn < 0).
      { assert (mn <= 0) by (rewrite <- Heq; eapply clamp_nonpos; exact Ht0).
        apply Qle_lt_or_eq in H as [H|H]; [exact H|]. by exfalso. }
      rewrite Qabs_neg by lra. field. intros E. apply Hnz. lra.
    + rewrite <- Heq. by apply column_lookup.
Qed.

Lemma analyze_binned_norm_range_witness :
  exists r, analyze_binned ex_new_nu ex_new_data = Ok r /\
  exists idx_blind,
    find_blind_channel (clamp_positive ex_new_data) = Ok (idx_blind, res_pss r) /\
    forall p i mn,
      kept_columns idx_blind !! p = Some i ->
      qmin (column (clamp_positive ex_new_data) i) = Ok mn -> ~ mn == 0 ->
      (forall t row, res_norm_data r !! t = Some row ->
         exists x, row !! p = Some x /\ -1 <= x <= 0) /\
      (exists t row x, res_norm_data r !! t = Some row /\ row !! p = Some x /\ x == -1 /\
         column (clamp_positive ex_new_data) i !! t = Some mn).
Proof.
  destruct (analyze_binned ex_new_nu ex_new_data) as [r| |] eqn:E;
    [|vm_compute in E; discriminate|vm_compute in E; discriminate].
  exists r. split; [reflexivity|].
  exact (analyze_binned_norm_range ex_new_nu ex_new_data r E).
Defined.

(** ** The result mapping *)

Lemma dict_get_set (k k' : string) v d :
  dict_get k (dict_set k' v d) = if String.eqb k k' then Some v else dict_get k d.
Proof.
  induction d as [|[k0 v0] d IH]; simpl.
  - destruct (String.eqb k k'); done.
  - destruct (String.eqb k' k0) eqn:E; simpl.
    + apply String.eqb_eq in E as ->. destruct (String.eqb k k0); done.
    + rewrite IH. destruct (String.eqb k k0) eqn:E1; [|done].
      apply String.eqb_eq in E1 as ->. destruct (String.eqb k0 k') eqn:E2; [|done].
      apply String.eqb_eq in E2 as ->. by rewrite String.eqb_refl in E.
Qed.

Lemma dict_set_set (k : string) v1 v2 d : dict_set k v2 (dict_set k v1 d) = dict_set k v2 d.
Proof.
  induction d as [|[k0 v0] d IH]; simpl.
  - by rewrite String.eqb_refl.
  - destruct (String.eqb k k0) eqn:E; simpl; [by rewrite String.eqb_refl|]. rewrite E. congruence.
Qed.

(** One pass of the inner loop body on a file row [rc] / [rb]. *)
Lemma detector_step j s key i nam0 names res cn bw rc rb d :
  cn !! j = Some rc -> bw !! j = Some rb -> (i < length rc)%nat -> (i < length rb)%nat ->
  dict_get key res = Some (PDict d) ->
  detector_loop j s key i (nam0 :: names) (res, cn, bw) =
  detector_loop j s key (S i) names
    (dict_set key (PDict (dict_set (strip_slash nam0)
       (det_entry (nthQ (if is_blind s i then <[i:=0]> rc else rc) i)
                  (nthQ (if is_blind s i then <[i:=0]> rb else rb) i)) d)) res,
     <[j := if is_blind s i then <[i:=0]> rc else rc]> cn,
     <[j := if is_blind s i then <[i:=0]> rb else rb]> bw).
Proof.
  intros Hc Hb Lc Lb Hk. simpl.
  assert (Hcj : (j < length cn)%nat) by (by apply lookup_lt_Some in Hc).
  assert (Hbj : (j < length bw)%nat) by (by apply lookup_lt_Some in Hb).
  destruct (is_blind s i).
  - unfold set2. rewrite Hc. apply Nat.ltb_lt in Lc as Lc'. rewrite Lc'. simpl.
    rewrite Hb. apply Nat.ltb_lt in Lb as Lb'. rewrite Lb'. simpl.
    unfold get2. rewrite !list_lookup_insert_eq by done.
    simpl. unfold set_nested. rewrite Hk. simpl.
    unfold nthQ. rewrite !nth_lookup, !list_lookup_insert_eq by done. done.
  - simpl. unfold get2. rewrite Hc, Hb.
    destruct (lookup_lt_is_Some_2 rc i Lc) as [c Hci].
    destruct (lookup_lt_is_Some_2 rb i Lb) as [b Hbi].
    rewrite Hci, Hbi. simpl. unfold set_nested. rewrite Hk. simpl.
    rewrite (list_insert_id cn j rc Hc), (list_insert_id bw j rb Hb).
    unfold nthQ. rewrite (nth_lookup_Some rc i 0 c Hci), (nth_lookup_Some rb i 0 b Hbi). done.
Qed.

Lemma is_blind_index s i :
  is_blind s i = match blind_index s with Some k => Nat.eqb i k | None => false end.
Proof.
  unfold is_blind, blind_index.
  destruct (String.eqb s "0101") eqn:E1.
  - apply String.eqb_eq in E1 as ->. simpl. by rewrite orb_false_r.
  - destruct (String.eqb s "0110") eqn:E2; simpl; [done|]. done.
Qed.

Lemma blind_index_cases s k : blind_index s = Some k -> k = 0%nat \/ k = 3%nat.
Proof.
  unfold blind_index.
  destruct (String.eqb s "0101"); [intros [= <-]; by right|].
  destruct (String.eqb s "0110"); [intros [= <-]; by left|done].
Qed.

Lemma nthQ_insert_ne l k x i : i <> k -> nthQ (<[k := x]> l) i = nthQ l i.
Proof. intros H. unfold nthQ. rewrite !nth_lookup, list_lookup_insert_ne by done. done. Qed.

Lemma nthQ_insert_eq l k x : (k < length l)%nat -> nthQ (<[k := x]> l) k = x.
Proof. intros H. unfold nthQ. rewrite nth_lookup, list_lookup_insert_eq by done. done. Qed.

Lemma det_dict_unfold rc rb :
  det_dict rc rb =
  [("PW0Q1", det_entry (nthQ rc 0) (nthQ rb 0)); ("PW1U1", det_entry (nthQ rc 1) (nthQ rb 1));
   ("PW2U2", det_entry (nthQ rc 2) (nthQ rb 2)); ("PW3Q2", det_entry (nthQ rc 3) (nthQ rb 3))].
Proof. reflexivity. Qed.

Ltac detector_side :=
  lazymatch goal with
  | |- dict_get _ _ = _ => first [assumption | rewrite dict_get_set, String.eqb_refl; reflexivity]
  | |- _ !! _ = _ => first [assumption | rewrite list_lookup_insert_eq; [reflexivity | rewrite ?length_insert; lia]]
  | |- _ => repeat match goal with |- context [if ?b then _ else _] => destruct b end;
            rewrite ?length_insert; lia
  end.

(** The whole inner loop on the row of file [j]. *)
Lemma detector_loop_file j s key res cn bw rc rb :
  cn !! j = Some rc -> bw !! j = Some rb ->
  (4 <= length rc)%nat -> (4 <= length rb)%nat ->
  dict_get key res = Some (PDict []) ->
  detector_loop j s key 0 NAMING_CONVENTION (res, cn, bw) =
  Ok (dict_set key (PDict (det_dict (zero_blind s rc) (zero_blind s rb))) res,
      <[j := zero_blind s rc]> cn, <[j := zero_blind s rb]> bw).
Proof.
  intros Hc Hb Lc Lb Hk.
  assert (Hcj : (j < length cn)%nat) by (by apply lookup_lt_Some in Hc).
  assert (Hbj : (j < length bw)%nat) by (by apply lookup_lt_Some in Hb).
  unfold NAMING_CONVENTION.
  rewrite (detector_step j s key 0 _ _ res cn bw rc rb []) by detector_side.
  erewrite detector_step; [| detector_side ..]; rewrite ?list_insert_insert_eq.
  do 2 (erewrite detector_step; [| detector_side ..]; rewrite ?list_insert_insert_eq).
  simpl detector_loop.
  rewrite !dict_set_set.
  rewrite !is_blind_index. unfold zero_blind.
  destruct (blind_index s) as [k|] eqn:Hbi.
  - destruct (blind_index_cases s k Hbi) as [-> | ->]; cbn [Nat.eqb].
    + rewrite det_dict_unfold, !nthQ_insert_eq by lia. rewrite !(nthQ_insert_ne _ 0) by lia. done.
    + rewrite det_dict_unfold, !nthQ_insert_eq by lia. rewrite !(nthQ_insert_ne _ 3) by lia. done.
  - by rewrite det_dict_unfold.
Qed.

Lemma ps_key_inj s s' k k' :
  s = "0101" \/ s = "0110" -> s' = "0101" \/ s' = "0110" ->
  ps_key s k = ps_key s' k' -> k = k'.
Proof. intros [-> | ->] [-> | ->]; unfold ps_key; simpl; intros H; simplify_eq; done. Qed.

Lemma ps_key_status s k (k' : nat) : ps_key s k <> "PSStatus" +:+ "_" +:+ pretty k'.
Proof. unfold ps_key. simpl. discriminate. Qed.

Lemma zero_blind_length s r : length (zero_blind s r) = length r.
Proof. unfold zero_blind. destruct (blind_index s); [apply length_insert|done]. Qed.

(** The outer loop, file by file from index [j]: the rows of the processed
    files get their blind entry zeroed, each file's dict is read off those
    rows, and keys of other files are left alone. *)
Lemma file_loop_spec PS : forall j res cn bw,
  Forall (fun s => s = "0101" \/ s = "0110") PS ->
  (j + length PS <= length cn)%nat -> (j + length PS <= length bw)%nat ->
  Forall (fun r => 4 <= length r)%nat cn -> Forall (fun r => 4 <= length r)%nat bw ->
  exists res' cn' bw', file_loop j PS (res, cn, bw) = Ok (res', cn', bw') /\
    (forall k, cn' !! k = if decide (j <= k)%nat
                          then match PS !! (k - j)%nat with
                               | Some s => zero_blind s <$> cn !! k | None => cn !! k end
                          else cn !! k) /\
    (forall k, bw' !! k = if decide (j <= k)%nat
                          then match PS !! (k - j)%nat with
                               | Some s => zero_blind s <$> bw !! k | None => bw !! k end
                          else bw !! k) /\
    (forall k s, PS !! k = Some s ->
       dict_get (ps_key s (j + k)%nat) res' =
       Some (PDict (det_dict (zero_blind s (cn !!! (j + k)%nat)) (zero_blind s (bw !!! (j + k)%nat))))) /\
    (forall key, (forall k s, PS !! k = Some s ->
                    key <> ps_key s (j + k)%nat /\ key <> "PSStatus" +:+ "_" +:+ pretty (j + k)%nat) ->
       dict_get key res' = dict_get key res).
Proof.
  induction PS as [|s rest IH]; intros j res cn bw Hv Lc Lb Fc Fb.
  - exists res, cn, bw. split; [done|]. split; [|split; [|split]].
    + intros k. destruct (decide (j <= k)%nat); [by rewrite lookup_nil|done].
    + intros k. destruct (decide (j <= k)%nat); [by rewrite lookup_nil|done].
    + intros k s H. by rewrite lookup_nil in H.
    + done.
  - apply Forall_cons in Hv as [Hs Hv]. simpl in Lc, Lb.
    destruct (lookup_lt_is_Some_2 cn j ltac:(lia)) as [rc Hc].
    destruct (lookup_lt_is_Some_2 bw j ltac:(lia)) as [rb Hb].
    assert (Hrc : (4 <= length rc)%nat) by exact (Forall_lookup_1 (fun r : list Q => (4 <= length r)%nat) cn j rc Fc Hc).
    assert (Hrb : (4 <= length rb)%nat) by exact (Forall_lookup_1 (fun r : list Q => (4 <= length r)%nat) bw j rb Fb Hb).
    set (res0 := dict_set (ps_key s j) (PDict [])
                   (dict_set ("PSStatus" +:+ "_" +:+ pretty j) (PStr s) res)).
    assert (Hk : dict_get (ps_key s j) res0 = Some (PDict [])).
    { unfold res0. by rewrite dict_get_set, String.eqb_refl. }
    set (res1 := dict_set (ps_key s j) (PDict (det_dict (zero_blind s rc) (zero_blind s rb))) res0).
    set (cn1 := <[j := zero_blind s rc]> cn).
    set (bw1 := <[j := zero_blind s rb]> bw).
    destruct (IH (S j) res1 cn1 bw1) as (res' & cn' & bw' & Hrun & Hcn & Hbw & Hd & Hfr); try done.
    { unfold cn1. rewrite length_insert. lia. }
    { unfold bw1. rewrite length_insert. lia. }
    { apply Forall_insert; [done|]. by rewrite zero_blind_length. }
    { apply Forall_insert; [done|]. by rewrite zero_blind_length. }
    exists res', cn', bw'. split.
    { change (file_loop j (s :: rest) (res, cn, bw)) with
        (st ← detector_loop j s (ps_key s j) 0 NAMING_CONVENTION (res0, cn, bw); file_loop (S j) rest st).
      rewrite (detector_loop_file j s (ps_key s j) res0 cn bw rc rb) by done.
      simpl. exact Hrun. }
    split; [|split; [|split]].
    + intros k. rewrite Hcn. unfold cn1.
      destruct (decide (k = j)) as [->|Hne].
      * rewrite decide_False by lia. rewrite decide_True by lia.
        rewrite Nat.sub_diag, list_lookup_insert_eq by lia. simpl. by rewrite Hc.
      * rewrite list_lookup_insert_ne by done.
        destruct (decide (S j <= k)%nat); [rewrite decide_True by lia | rewrite decide_False by lia; done].
        replace (k - j)%nat with (S (k - S j)) by lia. done.
    + intros k. rewrite Hbw. unfold bw1.
      destruct (decide (k = j)) as [->|Hne].
      * rewrite decide_False by lia. rewrite decide_True by lia.
        rewrite Nat.sub_diag, list_lookup_insert_eq by lia. simpl. by rewrite Hb.
      * rewrite list_lookup_insert_ne by done.
        destruct (decide (S j <= k)%nat); [rewrite decide_True by lia | rewrite decide_False by lia; done].
        replace (k - j)%nat with (S (k - S j)) by lia. done.
    + intros [|k] s' Hs'.
      * simpl in Hs'. injection Hs' as <-. rewrite Nat.add_0_r.
        rewrite Hfr.
        -- unfold res1. rewrite dict_get_set, String.eqb_refl.
           rewrite !list_lookup_total_alt, Hc, Hb. done.
        -- intros k s2 Hs2. split.
           ++ intros Heq. apply ps_key_inj in Heq; [lia|done|].
              exact (Forall_lookup_1 (fun s => s = "0101" \/ s = "0110") rest k s2 Hv Hs2).
           ++ apply ps_key_status.
      * simpl in Hs'. replace (j + S k)%nat with (S j + k)%nat by lia.
        rewrite Hd with (k := k) by done.
        unfold cn1, bw1. rewrite !list_lookup_total_insert_ne by lia. done.
    + intros key Hkey. rewrite Hfr.
      * destruct (Hkey 0%nat s eq_refl) as [N1 N2]. rewrite Nat.add_0_r in N1, N2.
        unfold res1, res0. rewrite !dict_get_set.
        destruct (String.eqb_spec key (ps_key s j)); [done|].
        destruct (String.eqb_spec key ("PSStatus" +:+ "_" +:+ pretty j)); done.
      * intros k s2 Hs2. replace (S j + k)%nat with (j + S k)%nat by lia.
        apply (Hkey (S k)). done.
Qed.

Lemma lookup_zero_blind s r i :
  (4 <= length r)%nat ->
  zero_blind s r !! i = if bool_decide (blind_index s = Some i) then Some 0 else r !! i.
Proof.
  intros L. unfold zero_blind. destruct (blind_index s) as [k|] eqn:Hk.
  - pose proof (blind_index_cases s k Hk) as Hk'.
    case_bool_decide as E.
    + injection E as ->. apply list_lookup_insert_eq. lia.
    + apply list_lookup_insert_ne. intros ->. done.
  - done.
Qed.

Lemma det_dict_lookup rc rb i nam :
  NAMING_CONVENTION !! i = Some nam ->
  dict_get (strip_slash nam) (det_dict rc rb) = Some (det_entry (nthQ rc i) (nthQ rb i)).
Proof.
  intros H. rewrite det_dict_unfold.
  destruct i as [|[|[|[|i]]]]; simpl in H; [injection H as <-; reflexivity .. | done].
Qed.

Lemma build_dict_file_loop pol_name duration PSStatus central_nu_det bandwidth_det fcn fcne fb fbe :
  build_dict_from_results pol_name duration PSStatus central_nu_det bandwidth_det fcn fcne fb fbe =
  file_loop 0 PSStatus
    ([("polarimeter_name", PStr pol_name);
      ("title", PStr ("Bandwidth test for polarimeter " +:+ pol_name));
      ("sampling_frequency", PNum SAMPLING_FREQUENCY_HZ);
      ("test_duration", PNum (duration / 60 / 60));
      ("final_central_nu", PNum fcn); ("final_central_nu_err", PNum fcne);
      ("final_bandwidth", PNum fb); ("final_bandwidth_err", PNum fbe)],
     central_nu_det, bandwidth_det).
Proof. reflexivity. Qed.

(** C8: for statuses as find_blind_channel returns them ('0101' or '0110'),
    one file row per status and four detectors per row, the entry of
    detector [i] of file [j] in the mapping under ['ps' + pss + '_' + str(j)]
    is [{central_nu: 0, bandwidth: 0}] for the blind detector of the file
    (index 3 for '0101', index 0 for '0110') and carries the file's computed
    values [central_nu_det[j, i]] and [bandwidth_det[j, i]] otherwise. *)
Theorem build_dict_blind_entries pol_name duration PSStatus central_nu_det bandwidth_det
    fcn fcne fb fbe :
  Forall (fun pss => pss = "0101" \/ pss = "0110") PSStatus ->
  (length PSStatus <= length central_nu_det)%nat ->
  (length PSStatus <= length bandwidth_det)%nat ->
  Forall (fun r => 4 <= length r)%nat central_nu_det ->
  Forall (fun r => 4 <= length r)%nat bandwidth_det ->
  exists results cn' bw',
    build_dict_from_results pol_name duration PSStatus central_nu_det bandwidth_det
      fcn fcne fb fbe = Ok (results, cn', bw') /\
    forall j pss i nam, PSStatus !! j = Some pss -> NAMING_CONVENTION !! i = Some nam ->
      exists e, dict_get (ps_key pss j) results = Some (PDict e) /\
        dict_get (strip_slash nam) e =
        Some (if bool_decide (blind_index pss = Some i) then det_entry 0 0
              else det_entry (nthQ (central_nu_det !!! j) i) (nthQ (bandwidth_det !!! j) i)).
Proof.
  intros Hv Lc Lb Fc Fb.
  rewrite build_dict_file_loop.
  match goal with |- context [file_loop 0 _ (?r, _, _)] =>
    destruct (file_loop_spec PSStatus 0 r central_nu_det bandwidth_det Hv ltac:(lia) ltac:(lia) Fc Fb)
      as (res' & cn' & bw' & Hrun & _ & _ & Hd & _) end.
  exists res', cn', bw'. split; [exact Hrun|].
  intros j pss i nam Hj Hi.
  pose proof (Hd j pss Hj) as Hdj. simpl in Hdj.
  eexists. split; [exact Hdj|].
  rewrite (det_dict_lookup _ _ i nam Hi).
  assert (Hi4 : (i < 4)%nat) by (apply lookup_lt_Some in Hi; done).
  assert (Hjl : (j < length PSStatus)%nat) by (apply lookup_lt_Some in Hj; done).
  destruct (lookup_lt_is_Some_2 central_nu_det j ltac:(lia)) as [rc Hc].
  destruct (lookup_lt_is_Some_2 bandwidth_det j ltac:(lia)) as [rb Hb].
  rewrite !list_lookup_total_alt, Hc, Hb. simpl.
  pose proof (Forall_lookup_1 (fun r : list Q => (4 <= length r)%nat) _ j rc Fc Hc) as Lrc.
  pose proof (Forall_lookup_1 (fun r : list Q => (4 <= length r)%nat) _ j rb Fb Hb) as Lrb.
  unfold nthQ. rewrite !nth_lookup, !lookup_zero_blind by done.
  case_bool_decide; done.
Qed.

Lemma build_dict_blind_entries_witness :
  exists results cn' bw',
    build_dict_from_results "STRIP00" 3600 ex_PSStatus ex_central_nu_det ex_bandwidth_det
      42 1 8 1 = Ok (results, cn', bw') /\
    forall j pss i nam, ex_PSStatus !! j = Some pss -> NAMING_CONVENTION !! i = Some nam ->
      exists e, dict_get (ps_key pss j) results = Some (PDict e) /\
        dict_get (strip_slash nam) e =
        Some (if bool_decide (blind_index pss = Some i) then det_entry 0 0
              else det_entry (nthQ (ex_central_nu_det !!! j) i) (nthQ (ex_bandwidth_det !!! j) i)).
Proof.
  apply build_dict_blind_entries.
  - constructor; [left; reflexivity|]. constructor; [right; reflexivity|]. constructor.
  - simpl. lia.
  - simpl. lia.
  - repeat constructor.
  - repeat constructor.
Defined.

(** C10: build_dict_from_results assigns into the caller's arrays: after the
    call (statuses as find_blind_channel returns them, one row per status,
    four detectors per row) [central_nu_det] and [bandwidth_det] hold 0 at the
    blind entry of each file row (index 3 for '0101', index 0 for '0110'),
    every other entry is unchanged, and the shape is kept. *)
Theorem build_dict_zeroes_blind_inputs pol_name duration PSStatus central_nu_det bandwidth_det
    fcn fcne fb fbe :
  Forall (fun pss => pss = "0101" \/ pss = "0110") PSStatus ->
  (length PSStatus <= length central_nu_det)%nat ->
  (length PSStatus <= length bandwidth_det)%nat ->
  Forall (fun r => 4 <= length r)%nat central_nu_det ->
  Forall (fun r => 4 <= length r)%nat bandwidth_det ->
  exists results cn' bw',
    build_dict_from_results pol_name duration PSStatus central_nu_det bandwidth_det
      fcn fcne fb fbe = Ok (results, cn', bw') /\
    (forall j, length <$> cn' !! j = length <$> central_nu_det !! j) /\
    (forall j, length <$> bw' !! j = length <$> bandwidth_det !! j) /\
    (forall j i, cn' !! j ≫= (.!! i) =
       if blind_at PSStatus j i then Some 0 else central_nu_det !! j ≫= (.!! i)) /\
    (forall j i, bw' !! j ≫= (.!! i) =
       if blind_at PSStatus j i then Some 0 else bandwidth_det !! j ≫= (.!! i)).
Proof.
  intros Hv Lc Lb Fc Fb.
  rewrite build_dict_file_loop.
  match goal with |- context [file_loop 0 _ (?r, _, _)] =>
    destruct (file_loop_spec PSStatus 0 r central_nu_det bandwidth_det Hv ltac:(lia) ltac:(lia) Fc Fb)
      as (res' & cn' & bw' & Hrun & Hcn & Hbw & _ & _) end.
  exists res', cn', bw'. split; [exact Hrun|].
  split; [|split; [|split]].
  - intros j. rewrite (Hcn j), decide_True, Nat.sub_0_r by lia.
    destruct (PSStatus !! j); [|done].
    destruct (central_nu_det !! j); [simpl; by rewrite zero_blind_length|done].
  - intros j. rewrite (Hbw j), decide_True, Nat.sub_0_r by lia.
    destruct (PSStatus !! j); [|done].
    destruct (bandwidth_det !! j); [simpl; by rewrite zero_blind_length|done].
  - intros j i. rewrite (Hcn j), decide_True, Nat.sub_0_r by lia. unfold blind_at.
    destruct (PSStatus !! j) as [pss|] eqn:Hj; [|done].
    assert (Hjl : (j < length PSStatus)%nat) by (apply lookup_lt_Some in Hj; done).
    destruct (lookup_lt_is_Some_2 central_nu_det j ltac:(lia)) as [rc Hc]. rewrite Hc. simpl.
    apply lookup_zero_blind.
    exact (Forall_lookup_1 (fun r : list Q => (4 <= length r)%nat) _ j rc Fc Hc).
  - intros j i. rewrite (Hbw j), decide_True, Nat.sub_0_r by lia. unfold blind_at.
    destruct (PSStatus !! j) as [pss|] eqn:Hj; [|done].
    assert (Hjl : (j < length PSStatus)%nat) by (apply lookup_lt_Some in Hj; done).
    destruct (lookup_lt_is_Some_2 bandwidth_det j ltac:(lia)) as [rb Hb]. rewrite Hb. simpl.
    apply lookup_zero_blind.
    exact (Forall_lookup_1 (fun r : list Q => (4 <= length r)%nat) _ j rb Fb Hb).
Qed.

Lemma build_dict_zeroes_blind_inputs_witness :
  exists results cn' bw',
    build_dict_from_results "STRIP00" 3600 ex_PSStatus ex_central_nu_det ex_bandwidth_det
      42 1 8 1 = Ok (results, cn', bw') /\
    (forall j, length <$> cn' !! j = length <$> ex_central_nu_det !! j) /\
    (forall j, length <$> bw' !! j = length <$> ex_bandwidth_det !! j) /\
    (forall j i, cn' !! j ≫= (.!! i) =
       if blind_at ex_PSStatus j i then Some 0 else ex_central_nu_det !! j ≫= (.!! i)) /\
    (forall j i, bw' !! j ≫= (.!! i) =
       if blind_at ex_PSStatus j i then Some 0 else ex_bandwidth_det !! j ≫= (.!! i)).
Proof.
  apply build_dict_zeroes_blind_inputs.
  - constructor; [left; reflexivity|]. constructor; [right; reflexivity|]. constructor.
  - simpl. lia.
  - simpl. lia.
  - repeat constructor.
  - repeat constructor.
Defined.

(** ** Offset removal *)

Lemma Qle_bool_shift x y k : Qle_bool (x + k) (y + k) = Qle_bool x y.
Proof.
  destruct (Qle_bool x y) eqn:E.
  - apply Qle_bool_iff in E. apply Qle_bool_iff. lra.
  - apply not_true_iff_false. apply not_true_iff_false in E.
    intros H. apply E. apply Qle_bool_iff in H. apply Qle_bool_iff. lra.
Qed.

Lemma insert_sorted_shift k x l :
  insert_sorted (x + k) (map (fun y => y + k) l) = map (fun y => y + k) (insert_sorted x l).
Proof.
  induction l as [|y l IH]; simpl; [done|].
  rewrite Qle_bool_shift. destruct (Qle_bool x y); simpl; [done|]. by rewrite IH.
Qed.

Lemma sort_shift k l : sort (map (fun y => y + k) l) = map (fun y => y + k) (sort l).
Proof. induction l as [|x l IH]; simpl; [done|]. by rewrite IH, insert_sorted_shift. Qed.

Lemma nthQ_map_shift k s i :
  (i < length s)%nat -> nthQ (map (fun y => y + k) s) i = nthQ s i + k.
Proof.
  intros H. destruct (lookup_lt_is_Some_2 s i H) as [x Hx].
  unfold nthQ. rewrite !nth_lookup.
  change (map (fun y => y + k) s) with ((fun y => y + k) <$> s).
  by rewrite list_lookup_fmap, Hx.
Qed.

Lemma median_shift k l z :
  median l = Ok z -> exists z', median (map (fun y => y + k) l) = Ok z' /\ z' == z + k.
Proof.
  unfold median. rewrite sort_shift, length_map.
  destruct (length (sort l)) as [|n] eqn:L; [discriminate|].
  pose proof (Nat.lt_div2 (S n) ltac:(lia)) as Hd.
  remember (Nat.div2 (S n)) as d eqn:Ed.
  destruct (Nat.odd (S n)); intros [= <-]; eexists; split; try reflexivity.
  - rewrite nthQ_map_shift by lia. reflexivity.
  - rewrite !nthQ_map_shift by lia. field.
Qed.

Lemma column_shift k rows i :
  Forall (fun r => length r = 4%nat) rows -> (i < 4)%nat ->
  column (add_const k rows) i = map (fun y => y + k) (column rows i).
Proof.
  intros Hr Hi. induction Hr as [|r rows Hr0 Hr IH]; simpl; [done|].
  rewrite IH, nthQ_map_shift by lia. done.
Qed.

Lemma mask_rows_shift k keep (nu : list Q) data :
  length nu = length data ->
  mask_rows keep nu (add_const k data) =
  Ok (add_const k (map snd (filter (fun p => keep p.1) (zip nu data)))).
Proof.
  intros L. unfold mask_rows, add_const. rewrite length_map, L, Nat.eqb_refl. f_equal.
  revert data L. induction nu as [|x nu IH]; intros [|r data] L; simpl in L; try done.
  cbn [map zip zip_with]. rewrite !filter_cons. simpl.
  destruct (decide (keep x)); simpl; rewrite IH by lia; done.
Qed.

Lemma mapM_seq_spec (f : nat -> outcome Q) (P : nat -> Q -> Prop) s n :
  (forall i, (s <= i < s + n)%nat -> exists z, f i = Ok z /\ P i z) ->
  exists zs, mapM f (seq s n) = Ok zs /\ forall i, (i < n)%nat -> P (s + i)%nat (nthQ zs i).
Proof.
  revert s. induction n as [|n IH]; intros s Hf; simpl.
  - exists []. split; [done|]. lia.
  - destruct (Hf s ltac:(lia)) as (z & Hz & Pz). rewrite Hz. simpl.
    destruct (IH (S s)) as (zs & Hzs & Pzs); [intros i Hi; apply Hf; lia|].
    rewrite Hzs. simpl. exists (z :: zs). split; [done|].
    intros [|i] Hi; simpl; [by rewrite Nat.add_0_r|].
    replace (s + S i)%nat with (S s + i)%nat by lia. apply Pzs. lia.
Qed.

Lemma median_axis0_shift k rows :
  Forall (fun r => length r = 4%nat) rows -> median_is_zero rows ->
  exists fo, median_axis0 4 (add_const k rows) = Ok fo /\
    forall i, (i < 4)%nat -> nthQ fo i == k.
Proof.
  intros Hr Hz. unfold median_axis0.
  apply (mapM_seq_spec _ (fun _ z => z == k) 0 4).
  intros i Hi. destruct (Hz i ltac:(lia)) as (z & Hm & Hz0).
  destruct (median_shift k _ z Hm) as (z' & Hm' & Hz').
  rewrite column_shift by (done || lia). exists z'. split; [done|].
  rewrite Hz', Hz0. ring.
Qed.

Lemma qmax_spec (l : list Q) (m : Q) : qmax l = Ok m -> forall x, In x l -> x <= m.
Proof.
  destruct l as [|x l]; simpl; [discriminate|]. intros [= <-].
  assert (H : forall acc y, In y (acc :: l) -> y <= fold_left Qmax l acc).
  { induction l as [|z l IH]; intros acc y Hy; simpl.
    - destruct Hy as [<-|[]]. apply Qle_refl.
    - destruct Hy as [<-|[<-|Hy]].
      + eapply Qle_trans; [apply Q.le_max_l|]. apply IH. by left.
      + eapply Qle_trans; [apply Q.le_max_r|]. apply IH. by left.
      + apply IH. by right. }
  apply H.
Qed.

Lemma polyfit_const x1 x2 y1 y2 k n :
  x1 < x2 -> y1 == k -> y2 == k ->
  n * (polyfit1 x1 x2 y1 y2).1 + (polyfit1 x1 x2 y1 y2).2 == k.
Proof.
  intros Hx H1 H2. unfold polyfit1.
  replace (Qeq_bool x1 x2) with false.
  2:{ symmetry. apply not_true_iff_false. intros E. apply Qeq_bool_iff in E. lra. }
  simpl. rewrite H1, H2.
  assert (E : (k - k) / (x2 - x1) == 0) by (unfold Qdiv, Qminus; rewrite Qplus_opp_r; apply Qmult_0_l).
  rewrite E. ring.
Qed.

Lemma bind_Ok {A B} (x : A) (f : A -> outcome B) : (Ok x ≫= f) = f x.
Proof. reflexivity. Qed.

Lemma qmin_ok l : l <> [] -> exists m, qmin l = Ok m.
Proof. destruct l; [done|]. intros _. eexists. reflexivity. Qed.

Lemma qmax_ok l : l <> [] -> exists m, qmax l = Ok m.
Proof. destruct l; [done|]. intros _. eexists. reflexivity. Qed.

Lemma off_rows_Forall (P : list Q -> Prop) nu data :
  Forall P data -> Forall P (off_rows nu data).
Proof.
  intros H. unfold off_rows. revert nu. induction H as [|r data Hr H IH]; intros [|x nu]; try constructor.
  cbn [zip zip_with]. rewrite filter_cons.
  destruct (decide _); simpl; [constructor; [done|]|]; apply IH.
Qed.

Lemma mask_rows_off k (nu : list Q) data :
  length nu = length data ->
  mask_rows (fun x => Qeq_bool x (-1)) nu (add_const k data) = Ok (add_const k (off_rows nu data)).
Proof. apply mask_rows_shift. Qed.

Lemma offset_rows_Qeq k (f : Q -> list Q -> list Q) (nu : list Q) data :
  length nu = length data -> Forall (fun r => length r = 4%nat) data ->
  (forall n r, length r = 4%nat -> Forall2 Qeq (f n (map (fun x => x + k) r)) r) ->
  Forall2 (Forall2 Qeq) (zip_with f nu (add_const k data)) data.
Proof.
  intros L Hr Hf. revert nu L. induction Hr as [|r data Hr0 Hr IH]; intros [|n nu] L; simpl in L; try done.
  - simpl. constructor; [exact (Hf n r Hr0)|]. apply IH. lia.
Qed.

(** C7, counterexample: an acquisition with no positive frequency meets
    the off-sentinel condition (both halves' off rows have median 0), yet
    remove_offset on the shifted data raises the [ValueError] of [np.min]
    on an empty array instead of returning the data. *)
Lemma remove_offset_no_positive_frequency :
  median_is_zero (off_rows (firstn 1 ex_off_nu) (firstn 1 ex_zero_data)) /\
  median_is_zero (off_rows (skipn 1 ex_off_nu) (skipn 1 ex_zero_data)) /\
  remove_offset ex_off_nu (add_const 1 ex_zero_data) = Raise (ValueError msg_min_empty).
Proof.
  split; [|split].
  - intros i Hi. exists 0. split; [|reflexivity].
    destruct i as [|[|[|[|i]]]]; [reflexivity .. | lia].
  - intros i Hi. exists 0. split; [|reflexivity].
    destruct i as [|[|[|[|i]]]]; [reflexivity .. | lia].
  - reflexivity.
Qed.

(** C7, the case the amendment excludes: with a single positive frequency
    [f = 40], [np.polyfit] on [x = [f, f]] gives numpy's minimum-norm line
    (slope [k / (2 f)], intercept [k / 2]), so after adding [k = 1] the rows
    at [nu = -1] keep the offset [1/2 - 1/80 = 39/80]: the first row comes
    back as [41/80] instead of 0, although both halves' off-sentinel rows
    have median 0. *)
Lemma remove_offset_single_frequency :
  median_is_zero (off_rows (firstn 2 ex_single_nu) (firstn 2 ex_single_data)) /\
  median_is_zero (off_rows (skipn 2 ex_single_nu) (skipn 2 ex_single_data)) /\
  match remove_offset ex_single_nu (add_const 1 ex_single_data) with
  | Ok (row :: _) => nthQ row 0 == 41 # 80 /\ ~ (nthQ row 0 == 0)
  | _ => False
  end.
Proof.
  split; [|split].
  - intros i Hi. exists 0. split; [|reflexivity].
    destruct i as [|[|[|[|i]]]]; [reflexivity .. | lia].
  - intros i Hi. exists 0. split; [|reflexivity].
    destruct i as [|[|[|[|i]]]]; [reflexivity .. | lia].
  - vm_compute. split; [reflexivity|discriminate].
Qed.

(** C7, as the code does it: when [nu] and [data] have the same length,
    [data] has the 4 detector columns, [nu] holds two different positive
    frequencies [a < b] (so [x1 = min nu[nu > 0] <= a < b <= max nu = x2]
    and np.polyfit fits the line through two distinct abscissae, not the
    minimum-norm line of [x1 = x2] shown above), and the off-sentinel rows of both
    temporal halves have per-detector median 0, remove_offset applied to
    [data + k] returns [data] (exactly, in rationals). *)
Theorem remove_offset_round_trip (nu : list Q) (data : list (list Q)) (k a b : Q) :
  length nu = length data ->
  Forall (fun r => length r = 4%nat) data ->
  In a nu -> In b nu -> 0 < a -> a < b ->
  median_is_zero (off_rows (firstn (Nat.div2 (length data)) nu) (firstn (Nat.div2 (length data)) data)) ->
  median_is_zero (off_rows (skipn (Nat.div2 (length data)) nu) (skipn (Nat.div2 (length data)) data)) ->
  exists data', remove_offset nu (add_const k data) = Ok data' /\ Forall2 (Forall2 Qeq) data' data.
Proof.
  intros L Hr Ha Hb Ha0 Hab Hz1 Hz2.
  set (h := Nat.div2 (length data)) in *.
  assert (Hm : ncols (add_const k data) = 4%nat).
  { destruct data as [|r data]; [destruct nu; [done|simpl in L; lia]|].
    simpl. rewrite length_map. by apply Forall_cons in Hr as [-> _]. }
  assert (Hpos : a ∈ filter positive nu).
  { apply list_elem_of_filter. split.
    - unfold positive. replace (Qle_bool a 0) with false; [exact I|].
      symmetry. apply not_true_iff_false. intros E. apply Qle_bool_iff in E. lra.
    - by apply list_elem_of_In. }
  destruct (qmin_ok (filter positive nu)) as [x1 Hx1]; [intros E; rewrite E in Hpos; set_solver|].
  destruct (qmax_ok nu) as [x2 Hx2]; [intros ->; done|].
  assert (Hx12 : x1 < x2).
  { apply qmin_spec in Hx1 as [_ Hle1]. pose proof (qmax_spec _ _ Hx2 b Hb).
    pose proof (Hle1 a (proj1 (list_elem_of_In _ _) Hpos)). lra. }
  assert (Hr1 : Forall (fun r => length r = 4%nat) (off_rows (firstn h nu) (firstn h data))).
  { apply off_rows_Forall. by apply Forall_take. }
  assert (Hr2 : Forall (fun r => length r = 4%nat) (off_rows (skipn h nu) (skipn h data))).
  { apply off_rows_Forall. by apply Forall_drop. }
  destruct (median_axis0_shift k _ Hr1 Hz1) as (fo & Hfo & Pfo).
  destruct (median_axis0_shift k _ Hr2 Hz2) as (so & Hso & Pso).
  unfold remove_offset. rewrite Hm.
  replace (length (add_const k data)) with (length data) by (by unfold add_const; rewrite length_map).
  rewrite L, Nat.eqb_refl. cbn [negb]. fold h.
  unfold add_const at 2 3. rewrite firstn_map, skipn_map. fold (add_const k (firstn h data)).
  fold (add_const k (skipn h data)).
  rewrite !mask_rows_off by (rewrite ?length_take, ?length_drop; lia). rewrite bind_Ok.
  rewrite bind_Ok.
  rewrite Hx1, bind_Ok, Hx2, bind_Ok, Hfo, bind_Ok, Hso, bind_Ok.
  cbn [Nat.ltb Nat.leb].
  eexists. split; [reflexivity|].
  apply offset_rows_Qeq; [done|done|].
  intros n r Hlen.
  destruct r as [|c0 [|c1 [|c2 [|c3 [|c4 r]]]]]; simpl in Hlen; try lia.
  cbn [map seq zip_with nth Nat.ltb Nat.leb].
  repeat (constructor; [rewrite (polyfit_const _ _ _ _ k); [ring | done | apply Pfo; lia | apply Pso; lia] |]).
  constructor.
Qed.

Lemma remove_offset_round_trip_witness :
  exists data', remove_offset ex_sweep_nu (add_const 3 ex_sweep_data) = Ok data' /\
    Forall2 (Forall2 Qeq) data' ex_sweep_data.
Proof.
  apply (remove_offset_round_trip ex_sweep_nu ex_sweep_data 3 38 50).
  - reflexivity.
  - repeat constructor.
  - simpl. tauto.
  - simpl. tauto.
  - reflexivity.
  - reflexivity.
  - intros i Hi. exists 0. split; [|reflexivity].
    destruct i as [|[|[|[|i]]]]; [reflexivity .. | lia].
  - intros i Hi. exists 0. split; [|reflexivity].
    destruct i as [|[|[|[|i]]]]; [reflexivity .. | lia].
Defined.

(** ** Reports *)





(** ** Binning by frequency *)

Lemma insert_sorted_perm x l : Permutation (insert_sorted x l) (x :: l).
Proof.
  induction l as [|y l IH]; simpl; [done|].
  destruct (Qle_bool x y); [done|].
  rewrite IH. apply perm_swap.
Qed.

Lemma sort_perm l : Permutation (sort l) l.
Proof. induction l as [|x l IH]; simpl; [done|]. by rewrite insert_sorted_perm, IH. Qed.

Lemma insert_sorted_HdRel y x l :
  HdRel Qle y l -> y <= x -> HdRel Qle y (insert_sorted x l).
Proof.
  intros H Hyx. destruct l as [|z l]; simpl; [by constructor|].
  destruct (Qle_bool x z); constructor; [done|]. by inversion H.
Qed.

Lemma insert_sorted_Sorted x l : Sorted Qle l -> Sorted Qle (insert_sorted x l).
Proof.
  induction 1 as [|y l Hl IH Hd]; simpl; [by repeat constructor|].
  destruct (Qle_bool x y) eqn:E.
  - apply Qle_bool_iff in E. constructor; [by constructor|]. by constructor.
  - constructor; [done|]. apply insert_sorted_HdRel; [done|].
    apply Qlt_le_weak, Qnot_le_lt. intros E'. apply Qle_bool_iff in E'. congruence.
Qed.

Lemma sort_Sorted l : Sorted Qle (sort l).
Proof. induction l as [|x l IH]; simpl; [constructor|]. by apply insert_sorted_Sorted. Qed.

Lemma dedup_In p l x : In x (dedup_sorted p l) -> In x l.
Proof.
  revert p. induction l as [|y l IH]; intros p; simpl; [done|].
  destruct (Qeq_bool y p).
  - intros H. right. eapply IH; eauto.
  - intros [<-|H]; [by left|]. right. eapply IH; eauto.
Qed.

Lemma dedup_cover p l y :
  In y l -> exists x, (x = p \/ In x (dedup_sorted p l)) /\ x == y.
Proof.
  revert p. induction l as [|z l IH]; intros p Hy; simpl; [done|].
  destruct (Qeq_bool z p) eqn:E.
  - apply Qeq_bool_iff in E. destruct Hy as [<-|Hy].
    + exists p. split; [by left|]. by symmetry.
    + apply IH, Hy.
  - destruct Hy as [<-|Hy].
    + exists z. split; [right; by left|]. reflexivity.
    + destruct (IH z Hy) as (x & [Hx|Hx] & Hxy); exists x; (split; [|done]).
      * right. left. by symmetry.
      * right. by right.
Qed.

Lemma dedup_Sorted p l : Sorted Qle (p :: l) -> Sorted Qlt (p :: dedup_sorted p l).
Proof.
  revert p. induction l as [|y l IH]; intros p Hs; simpl; [by repeat constructor|].
  apply Sorted_inv in Hs as [Hs Hd]. apply HdRel_inv in Hd.
  destruct (Qeq_bool y p) eqn:E.
  - apply Qeq_bool_iff in E. apply IH. constructor.
    + by apply Sorted_inv in Hs as [? _].
    + apply Sorted_inv in Hs as [_ Hd']. destruct l as [|z l]; constructor.
      apply HdRel_inv in Hd'. rewrite <- E. done.
  - constructor; [by apply IH|]. constructor.
    apply Qle_lteq in Hd as [Hlt|Heq]; [done|].
    exfalso. assert (Qeq_bool y p = true) by (apply Qeq_bool_iff; by symmetry). congruence.
Qed.

Lemma unique_values_In l x : In x (unique_values l) -> In x l.
Proof.
  unfold unique_values. pose proof (sort_perm l) as Hp.
  destruct (sort l) as [|y l'] eqn:Es; [done|].
  intros H. apply (Permutation_in _ Hp). destruct H as [<-|H]; [by left|].
  right. by eapply dedup_In.
Qed.

Lemma unique_values_cover l y : In y l -> exists x, In x (unique_values l) /\ x == y.
Proof.
  unfold unique_values. intros Hy.
  pose proof (Permutation_in _ (Permutation_sym (sort_perm l)) Hy) as Hy'.
  destruct (sort l) as [|z l'] eqn:Es; [done|].
  destruct Hy' as [<-|Hy'].
  - exists z. split; [by left|]. reflexivity.
  - destruct (dedup_cover z l' y Hy') as (x & [Hx|Hx] & Hxy); exists x; (split; [|done]).
    + left. by symmetry.
    + by right.
Qed.

Lemma unique_values_Sorted l : Sorted Qlt (unique_values l).
Proof.
  unfold unique_values. pose proof (sort_Sorted l) as Hs.
  destruct (sort l) as [|y l']; [constructor|]. by apply dedup_Sorted.
Qed.

Lemma StronglySorted_lookup (R : Q -> Q -> Prop) l k1 k2 a b :
  StronglySorted R l -> (k1 < k2)%nat -> l !! k1 = Some a -> l !! k2 = Some b -> R a b.
Proof.
  intros Hs. revert k1 k2. induction Hs as [|z l Hs IH Hall]; intros k1 k2 Hk H1 H2; [done|].
  destruct k1 as [|k1], k2 as [|k2]; simpl in *; try lia.
  - injection H1 as <-. exact (Forall_lookup_1 _ _ _ _ Hall H2).
  - eapply IH; [|exact H1|exact H2]. lia.
Qed.

Lemma unique_values_distinct l k1 k2 x1 x2 :
  unique_values l !! k1 = Some x1 -> unique_values l !! k2 = Some x2 -> x1 == x2 -> k1 = k2.
Proof.
  intros H1 H2 E.
  pose proof (Sorted_StronglySorted Qlt_trans (unique_values_Sorted l)) as Hs.
  destruct (Nat.lt_trichotomy k1 k2) as [Hk|[Hk|Hk]]; [|done|].
  - pose proof (StronglySorted_lookup _ _ _ _ _ _ Hs Hk H1 H2). lra.
  - pose proof (StronglySorted_lookup _ _ _ _ _ _ Hs Hk H2 H1). lra.
Qed.

Lemma Qeq_bool_false x y : ~ x == y -> Qeq_bool x y = false.
Proof. intros H. destruct (Qeq_bool x y) eqn:E; [|done]. by apply Qeq_bool_iff in E. Qed.

Lemma run_of_cons x y l d D :
  run_of x (y :: l) (d :: D) = if Qeq_bool y x then d :: run_of x l D else run_of x l D.
Proof. unfold run_of. simpl. rewrite filter_cons. simpl. by destruct (Qeq_bool y x). Qed.

Lemma run_of_none x l D : Forall (fun y => ~ y == x) l -> run_of x l D = [].
Proof.
  revert D. induction l as [|y l IH]; intros [|d D] Hl; try done.
  apply Forall_cons in Hl as [Hy Hl]. rewrite run_of_cons, Qeq_bool_false by done. auto.
Qed.

Lemma run_of_split x pre mid post D :
  Forall (fun y => ~ y == x) pre -> Forall (fun y => y == x) mid ->
  Forall (fun y => ~ y == x) post -> length D = length (pre ++ mid ++ post) ->
  run_of x (pre ++ mid ++ post) D = firstn (length mid) (skipn (length pre) D).
Proof.
  intros Hpre Hmid Hpost. revert D. induction pre as [|y pre IH]; intros D HD.
  - simpl. clear Hpre. revert D HD. induction mid as [|y mid IHm]; intros D HD.
    + by rewrite run_of_none.
    + destruct D as [|d D]; [done|]. apply Forall_cons in Hmid as [Hy Hmid].
      simpl. rewrite run_of_cons. replace (Qeq_bool y x) with true by (symmetry; by apply Qeq_bool_iff).
      f_equal. rewrite (IHm Hmid D) by (simpl in HD |- *; lia). done.
  - destruct D as [|d D]; [done|]. apply Forall_cons in Hpre as [Hy Hpre].
    simpl. rewrite run_of_cons, Qeq_bool_false by done. rewrite (IH Hpre D) by (simpl in HD |- *; lia). done.
Qed.

Lemma first_index_split x pre mid post :
  Forall (fun y => ~ y == x) pre -> Forall (fun y => y == x) mid -> mid <> [] ->
  first_index x (pre ++ mid ++ post) = length pre.
Proof.
  intros Hpre Hmid Hne. induction pre as [|y pre IH]; simpl.
  - destruct mid as [|m mid]; [done|]. simpl. apply Forall_cons in Hmid as [Hm _].
    by replace (Qeq_bool m x) with true by (symmetry; by apply Qeq_bool_iff).
  - apply Forall_cons in Hpre as [Hy Hpre]. rewrite Qeq_bool_false by done. auto.
Qed.

Lemma count_of_split x pre mid post :
  Forall (fun y => ~ y == x) pre -> Forall (fun y => y == x) mid ->
  Forall (fun y => ~ y == x) post -> count_of x (pre ++ mid ++ post) = length mid.
Proof.
  intros Hpre Hmid Hpost. unfold count_of. rewrite !filter_app.
  assert (Hn : forall l, Forall (fun y => ~ y == x) l -> filter (fun y => Qeq_bool y x) l = []).
  { induction l as [|y l IH]; intros Hl; [done|]. apply Forall_cons in Hl as [Hy Hl].
    rewrite filter_cons, Qeq_bool_false by done. auto. }
  rewrite Hn, (Hn post) by done. rewrite app_nil_r. simpl.
  clear Hpre Hpost. induction mid as [|y mid IH]; [done|]. apply Forall_cons in Hmid as [Hy Hmid].
  rewrite filter_cons. replace (Qeq_bool y x) with true by (symmetry; by apply Qeq_bool_iff).
  simpl. auto.
Qed.

Lemma py_slice_trim {A} (D : list A) p m rej :
  (p + m <= length D)%nat -> (2 * rej < m)%nat ->
  py_slice D (Z.of_nat p + Z.of_nat rej) (Z.of_nat p + Z.of_nat m - Z.of_nat rej)
  = trim rej (firstn m (skipn p D)).
Proof.
  intros Hl Hr. unfold py_slice, py_index, trim.
  rewrite !(proj2 (Z.ltb_ge _ _)) by lia.
  rewrite !Z.min_l by lia.
  rewrite length_take, length_drop.
  replace (Nat.min m (length D - p)) with m by lia.
  replace (Z.to_nat (Z.of_nat p + Z.of_nat m - Z.of_nat rej - (Z.of_nat p + Z.of_nat rej)))
    with (m - 2 * rej)%nat by lia.
  replace (Z.to_nat (Z.of_nat p + Z.of_nat rej)) with (rej + p)%nat by lia.
  rewrite skipn_firstn_comm, firstn_firstn, skipn_skipn.
  f_equal. lia.
Qed.

Lemma length_kept_rows nu data :
  length nu = length data -> length (kept_rows nu data) = length (filter positive nu).
Proof.
  unfold kept_rows. revert data. induction nu as [|y nu IH]; intros [|d data] H; try done.
  simpl. rewrite !filter_cons. simpl in H. simpl.
  case_decide; simpl; [f_equal|]; apply IH; lia.
Qed.

Lemma mask_rows_kept nu data :
  length nu = length data -> mask_rows positive nu data = Ok (kept_rows nu data).
Proof. intros H. unfold mask_rows. by rewrite H, Nat.eqb_refl. Qed.

Lemma positive_spec x : positive x = true <-> 0 < x.
Proof.
  unfold positive. split.
  - intros H. apply Qnot_le_lt. intros Hle. apply Qle_bool_iff in Hle. by rewrite Hle in H.
  - intros H. destruct (Qle_bool x 0) eqn:E; [|done]. apply Qle_bool_iff in E. lra.
Qed.

Lemma In_filter_positive nu x : In x (filter positive nu) <-> In x nu /\ 0 < x.
Proof.
  rewrite <- list_elem_of_In, list_elem_of_filter, list_elem_of_In, Is_true_true, positive_spec.
  tauto.
Qed.

Lemma median_ok a : a <> [] -> exists r, median a = Ok r.
Proof.
  intros Ha. unfold median. rewrite length_sort.
  destruct a; [done|]. simpl. destruct (Nat.odd _); eauto.
Qed.

Lemma std_ok sqrt a : a <> [] -> exists r, std sqrt a = Ok r.
Proof. intros Ha. unfold std, mean. destruct a; [done|]. simpl. eauto. Qed.

Lemma median_axis0_ok m rows : rows <> [] -> exists r, median_axis0 m rows = Ok r.
Proof.
  intros Hr. unfold median_axis0.
  destruct (mapM_ok (fun i => median (column rows i)) (seq 0 m)) as (ys & Hys & _); [|eauto].
  intros i _. apply median_ok. intros Hc. apply (f_equal length) in Hc.
  rewrite column_length in Hc. destruct rows; [done|]. discriminate.
Qed.

Lemma std_axis0_ok sqrt m rows : rows <> [] -> exists r, std_axis0 sqrt m rows = Ok r.
Proof.
  intros Hr. unfold std_axis0.
  destruct (mapM_ok (fun i => std sqrt (column rows i)) (seq 0 m)) as (ys & Hys & _); [|eauto].
  intros i _. apply std_ok. intros Hc. apply (f_equal length) in Hc.
  rewrite column_length in Hc. destruct rows; [done|]. discriminate.
Qed.

Lemma length_trim {A} rej (r : list A) : length (trim rej r) = (length r - 2 * rej)%nat.
Proof. unfold trim. rewrite length_take, length_drop. lia. Qed.

(** The slice the source takes for one frequency is the trimmed run. *)
Lemma bin_slice x l D rej :
  contiguous_run x l rej -> length D = length l ->
  let j := Z.of_nat (first_index x l) in
  let c := Z.of_nat (count_of x l) in
  py_slice D (j + Z.of_nat rej) (j + c - Z.of_nat rej) = trim rej (run_of x l D) /\
  c = Z.of_nat (length (run_of x l D)) /\ trim rej (run_of x l D) <> [].
Proof.
  intros (pre & mid & post & -> & Hpre & Hmid & Hpost & Hlen) HD. simpl.
  assert (Hne : mid <> []) by (intros ->; simpl in Hlen; lia).
  rewrite first_index_split, count_of_split, run_of_split by done.
  rewrite length_app, length_app in HD.
  assert (Hrun : length (firstn (length mid) (skipn (length pre) D)) = length mid)
    by (rewrite length_take, length_drop; lia).
  split; [apply py_slice_trim; lia|]. split; [by rewrite Hrun|].
  intros Ht. apply (f_equal length) in Ht. rewrite length_trim, Hrun in Ht. simpl in Ht. lia.
Qed.

Lemma lookup_map_Some {A B} (f : A -> B) l k y : l !! k = Some y -> map f l !! k = Some (f y).
Proof. revert k. induction l as [|z l IH]; intros [|k] H; simpl in *; try done; [by injection H as ->|auto]. Qed.

(** C3: when every distinct positive frequency occupies one contiguous run of
    more than [2 * rej] samples among the kept samples, the result has one
    row per distinct positive frequency (samples at [nu <= 0] never reach it),
    whose values are the per-detector median of the run without its first and
    last [rej] samples, and whose standard errors are the per-detector
    standard deviation of that trimmed run divided by the square root of the
    run length [c]. *)
Theorem get_frequency_range_and_data_runs (sqrt : Q -> Q) (nu : list Q)
    (data : list (list Q)) (rej : nat) :
  length nu = length data ->
  (forall x, In x (filter positive nu) -> contiguous_run x (filter positive nu) rej) ->
  exists u med se,
    get_frequency_range_and_data sqrt nu data true rej = Ok (u, med, Some se) /\
    length med = length u /\ length se = length u /\
    (forall x, In x u -> In x nu /\ 0 < x) /\
    (forall y, In y nu -> 0 < y -> exists x, In x u /\ x == y) /\
    (forall k1 k2 x1 x2, u !! k1 = Some x1 -> u !! k2 = Some x2 -> x1 == x2 -> k1 = k2) /\
    (forall k x, u !! k = Some x ->
       let run := run_of x (filter positive nu) (kept_rows nu data) in
       exists mk sd,
         med !! k = Some mk /\
         se !! k = Some (map (fun s => s / sqrt (inject_Z (Z.of_nat (length run)))) sd) /\
         median_axis0 (ncols data) (trim rej run) = Ok mk /\
         std_axis0 sqrt (ncols data) (trim rej run) = Ok sd).
Proof.
  intros Hlen Hrun.
  pose proof (length_kept_rows nu data Hlen) as HD.
  unfold get_frequency_range_and_data. rewrite mask_rows_kept by done. rewrite bind_Ok.
  match goal with |- context [mapM ?F (unique_values _)] => set (stats := F) end.
  set (l := filter positive nu) in *. set (D := kept_rows nu data) in *.
  assert (Hstat : forall x, In x (unique_values l) ->
    exists mk sd, median_axis0 (ncols data) (trim rej (run_of x l D)) = Ok mk /\
      std_axis0 sqrt (ncols data) (trim rej (run_of x l D)) = Ok sd /\
      stats x = Ok (mk, map (fun s => s / sqrt (inject_Z (Z.of_nat (length (run_of x l D))))) sd)).
  { intros x Hx. pose proof (bin_slice x l D rej (Hrun x (unique_values_In _ _ Hx)) HD) as Hb.
    cbv zeta in Hb. destruct Hb as (Hs & Hc & Hne).
    destruct (median_axis0_ok (ncols data) _ Hne) as [mk Hmk].
    destruct (std_axis0_ok sqrt (ncols data) _ Hne) as [sd Hsd].
    exists mk, sd. split; [done|]. split; [done|].
    unfold stats. cbv zeta. rewrite Hs, Hmk, bind_Ok, Hsd, bind_Ok. by rewrite Hc. }
  destruct (mapM_ok stats (unique_values l)) as (rows & Hrows & Hlr).
  { intros x Hx. destruct (Hstat x Hx) as (mk & sd & _ & _ & H). eauto. }
  rewrite Hrows, bind_Ok.
  eexists _, _, _. split; [reflexivity|].
  split; [by rewrite length_map|]. split; [by rewrite length_map|].
  split; [intros x Hx; apply In_filter_positive, (unique_values_In _ _ Hx)|].
  split.
  { intros y Hy Hpos. apply unique_values_cover. by apply In_filter_positive. }
  split; [apply unique_values_distinct|].
  intros k x Hk. simpl.
  destruct (mapM_lookup stats _ _ k x Hrows Hk) as (y & Hy & Hf).
  assert (Hin : In x (unique_values l)).
  { apply list_elem_of_In. by eapply list_elem_of_lookup_2. }
  destruct (Hstat x Hin) as (mk & sd & Hmk & Hsd & Hs).
  rewrite Hs in Hf. injection Hf as <-.
  exists mk, sd. split; [exact (lookup_map_Some fst _ _ _ Hy)|].
  split; [exact (lookup_map_Some snd _ _ _ Hy)|]. done.
Qed.

Lemma get_frequency_range_and_data_runs_witness :
  exists u med se,
    get_frequency_range_and_data (fun q => q) ex_bin_nu ex_bin_data true 1 = Ok (u, med, Some se) /\
    length med = length u /\ length se = length u /\
    (forall x, In x u -> In x ex_bin_nu /\ 0 < x) /\
    (forall y, In y ex_bin_nu -> 0 < y -> exists x, In x u /\ x == y) /\
    (forall k1 k2 x1 x2, u !! k1 = Some x1 -> u !! k2 = Some x2 -> x1 == x2 -> k1 = k2) /\
    (forall k x, u !! k = Some x ->
       let run := run_of x (filter positive ex_bin_nu) (kept_rows ex_bin_nu ex_bin_data) in
       exists mk sd,
         med !! k = Some mk /\
         se !! k = Some (map (fun s => s / inject_Z (Z.of_nat (length run))) sd) /\
         median_axis0 (ncols ex_bin_data) (trim 1 run) = Ok mk /\
         std_axis0 (fun q => q) (ncols ex_bin_data) (trim 1 run) = Ok sd).
Proof.
  apply (get_frequency_range_and_data_runs (fun q => q)).
  - reflexivity.
  - intros x Hx. vm_compute in Hx.
    assert (Hx' : x = 3 \/ x = 2) by (destruct Hx as [<-|[<-|[<-|[<-|[<-|[<-|[]]]]]]]; auto).
    destruct Hx' as [-> | ->].
    + exists [], [3; 3; 3], [2; 2; 2]. split; [reflexivity|].
      repeat split; repeat constructor; unfold Qeq; simpl; lia.
    + exists [3; 3; 3], [2; 2; 2], []. split; [reflexivity|].
      repeat split; repeat constructor; unfold Qeq; simpl; lia.
Defined.

(** ** The result mapping beyond the blind entries *)

Lemma bind_Ok_inv {A B} (m : outcome A) (f : A -> outcome B) y :
  (m ≫= f) = Ok y -> exists x, m = Ok x /\ f x = Ok y.
Proof. destruct m as [x| |]; simpl; [eauto|done|done]. Qed.

Lemma set2_Ok a j i x a' :
  set2 a j i x = Ok a' -> forall k, length <$> a' !! k = length <$> a !! k.
Proof.
  unfold set2. destruct (a !! j) as [r|] eqn:Ha; [|done].
  destruct (i <? length r)%nat; [|done]. intros [= <-] k.
  destruct (decide (k = j)) as [->|Hne].
  - rewrite list_lookup_insert_eq, Ha by (by apply lookup_lt_Some in Ha). simpl. by rewrite length_insert.
  - by rewrite list_lookup_insert_ne.
Qed.

Lemma set_nested_Ok key nam v res res' :
  set_nested key nam v res = Ok res' -> forall k, k <> key -> dict_get k res' = dict_get k res.
Proof.
  unfold set_nested. destruct (dict_get key res) as [[| |d]|]; try done.
  intros [= <-] k Hk. rewrite dict_get_set. by destruct (String.eqb_spec k key).
Qed.

Lemma detector_loop_Ok j s key i names res cn bw res' cn' bw' :
  detector_loop j s key i names (res, cn, bw) = Ok (res', cn', bw') ->
  (forall k, k <> key -> dict_get k res' = dict_get k res) /\
  (forall k, length <$> cn' !! k = length <$> cn !! k) /\
  (forall k, length <$> bw' !! k = length <$> bw !! k).
Proof.
  revert i res cn bw. induction names as [|nam names IH]; intros i res cn bw H.
  - simpl in H. injection H as -> -> ->. done.
  - simpl in H. apply bind_Ok_inv in H as ([cn1 bw1] & H1 & H).
    assert (L1 : (forall k, length <$> cn1 !! k = length <$> cn !! k) /\
                 (forall k, length <$> bw1 !! k = length <$> bw !! k)).
    { destruct (is_blind s i).
      - apply bind_Ok_inv in H1 as (c2 & Hc2 & H1). apply bind_Ok_inv in H1 as (b2 & Hb2 & H1).
        injection H1 as -> ->. split; [exact (set2_Ok _ _ _ _ _ Hc2) | exact (set2_Ok _ _ _ _ _ Hb2)].
      - by injection H1 as -> ->. }
    apply bind_Ok_inv in H as (c & _ & H). apply bind_Ok_inv in H as (b & _ & H).
    apply bind_Ok_inv in H as (res1 & Hr & H).
    destruct (IH _ _ _ _ H) as (K & C & B). destruct L1 as [C1 B1].
    split; [|split].
    + intros k Hk. rewrite K by done. exact (set_nested_Ok _ _ _ _ _ Hr k Hk).
    + intros k. by rewrite C, C1.
    + intros k. by rewrite B, B1.
Qed.

Lemma status_key_inj (n m : nat) :
  "PSStatus" +:+ "_" +:+ pretty n = "PSStatus" +:+ "_" +:+ pretty m -> n = m.
Proof. simpl. intros H. simplify_eq. by apply (inj pretty). Qed.

Lemma file_loop_Ok PS : forall j res cn bw res' cn' bw',
  file_loop j PS (res, cn, bw) = Ok (res', cn', bw') ->
  (forall key, (forall m s, PS !! m = Some s ->
                  key <> ps_key s (j + m)%nat /\ key <> "PSStatus" +:+ "_" +:+ pretty (j + m)%nat) ->
     dict_get key res' = dict_get key res) /\
  (forall m s, PS !! m = Some s ->
     dict_get ("PSStatus" +:+ "_" +:+ pretty (j + m)%nat) res' = Some (PStr s)) /\
  (forall k, length <$> cn' !! k = length <$> cn !! k) /\
  (forall k, length <$> bw' !! k = length <$> bw !! k).
Proof.
  induction PS as [|s rest IH]; intros j res cn bw res' cn' bw' H.
  - simpl in H. injection H as -> -> ->. split; [done|]. split; [|done].
    intros m s Hm. by rewrite lookup_nil in Hm.
  - change (file_loop j (s :: rest) (res, cn, bw)) with
      (st ← detector_loop j s (ps_key s j) 0 NAMING_CONVENTION
              (dict_set (ps_key s j) (PDict [])
                 (dict_set ("PSStatus" +:+ "_" +:+ pretty j) (PStr s) res), cn, bw);
       file_loop (S j) rest st) in H.
    apply bind_Ok_inv in H as ([[res1 cn1] bw1] & Hd & H).
    destruct (detector_loop_Ok _ _ _ _ _ _ _ _ _ _ _ Hd) as (Kd & Cd & Bd).
    destruct (IH _ _ _ _ _ _ _ H) as (K & P & C & B).
    assert (Hk1 : forall key, key <> ps_key s j -> key <> "PSStatus" +:+ "_" +:+ pretty j ->
              dict_get key res1 = dict_get key res).
    { intros key N1 N2. rewrite Kd by done. rewrite !dict_get_set.
      destruct (String.eqb_spec key (ps_key s j)); [done|].
      by destruct (String.eqb_spec key ("PSStatus" +:+ "_" +:+ pretty j)). }
    split; [|split; [|split]].
    + intros key Hkey. rewrite K.
      * destruct (Hkey 0%nat s eq_refl) as [N1 N2]. rewrite Nat.add_0_r in N1, N2. by apply Hk1.
      * intros m s2 Hs2. replace (S j + m)%nat with (j + S m)%nat by lia. by apply (Hkey (S m)).
    + intros [|m] s2 Hs2.
      * simpl in Hs2. injection Hs2 as <-. rewrite Nat.add_0_r. rewrite K.
        -- rewrite Kd by apply not_eq_sym, ps_key_status.
           rewrite dict_get_set. destruct (String.eqb_spec ("PSStatus" +:+ "_" +:+ pretty j) (ps_key s j)) as [E|_].
           ++ exfalso. by apply (ps_key_status s j j).
           ++ by rewrite dict_get_set, String.eqb_refl.
        -- intros m s3 _. split; [apply not_eq_sym, ps_key_status|].
           intros E. apply status_key_inj in E. lia.
      * simpl in Hs2. replace (j + S m)%nat with (S j + m)%nat by lia. by apply P.
    + intros k. by rewrite C, Cd.
    + intros k. by rewrite B, Bd.
Qed.

Lemma detector_loop_IndexError j s key i names res cn bw d :
  dict_get key res = Some (PDict d) -> names <> [] ->
  match cn !! j, bw !! j with
  | Some rc, Some rb => (i + length names <=? length rc)%nat && (i + length names <=? length rb)%nat
  | _, _ => false
  end = false ->
  detector_loop j s key i names (res, cn, bw) = Raise IndexError.
Proof.
  revert i res cn bw d. induction names as [|nam names IH]; intros i res cn bw d Hk Hne Hfit; [done|].
  destruct (cn !! j) as [rc|] eqn:Hc; destruct (bw !! j) as [rb|] eqn:Hb;
    [destruct (decide (i < length rc)%nat) as [Lc|Lc]; [destruct (decide (i < length rb)%nat) as [Lb|Lb]|]| | |].
  2-6: unfold detector_loop; fold detector_loop; unfold set2, get2; rewrite ?Hc, ?Hb;
    destruct (is_blind s i); simpl; rewrite ?Hc, ?Hb;
    repeat (case_match; simplify_eq/=); try done;
    repeat match goal with
    | H : (_ <? _)%nat = true |- _ => apply Nat.ltb_lt in H
    | H : (_ <? _)%nat = false |- _ => apply Nat.ltb_ge in H
    | H : _ !! _ = Some _ |- _ => apply lookup_lt_Some in H
    end; try lia.
  rewrite (detector_step j s key i nam names res cn bw rc rb d) by done.
  assert (Hcj : (j < length cn)%nat) by (by apply lookup_lt_Some in Hc).
  assert (Hbj : (j < length bw)%nat) by (by apply lookup_lt_Some in Hb).
  destruct names as [|nam' names'].
  - simpl in Hfit. apply andb_false_iff in Hfit as [F|F]; apply Nat.leb_gt in F; lia.
  - eapply IH; [by rewrite dict_get_set, String.eqb_refl|done|].
    rewrite !list_lookup_insert_eq by done.
    replace (S i + length (nam' :: names'))%nat with (i + length (nam :: nam' :: names'))%nat
      by (simpl; lia).
    by destruct (is_blind s i); rewrite ?length_insert.
Qed.

Lemma forallb_seq_ext (f g : nat -> bool) s n :
  (forall k, (s <= k)%nat -> f k = g k) -> forallb f (seq s n) = forallb g (seq s n).
Proof.
  revert s. induction n as [|n IH]; intros s H; simpl; [done|].
  rewrite H by lia. f_equal. apply IH. intros k Hk. apply H. lia.
Qed.

Lemma row_fits_insert a j r k : k <> j -> row_fits (<[j := r]> a) k = row_fits a k.
Proof. intros H. unfold row_fits. by rewrite list_lookup_insert_ne. Qed.

Lemma file_loop_fits PS : forall j res cn bw,
  (forallb (fun k => row_fits cn k && row_fits bw k) (seq j (length PS)) = true ->
   exists st, file_loop j PS (res, cn, bw) = Ok st) /\
  (forallb (fun k => row_fits cn k && row_fits bw k) (seq j (length PS)) = false ->
   file_loop j PS (res, cn, bw) = Raise IndexError).
Proof.
  induction PS as [|s rest IH]; intros j res cn bw; [simpl; split; [eauto|done]|].
  cbn [length seq forallb].
  change (file_loop j (s :: rest) (res, cn, bw)) with
    (st ← detector_loop j s (ps_key s j) 0 NAMING_CONVENTION
            (dict_set (ps_key s j) (PDict [])
               (dict_set ("PSStatus" +:+ "_" +:+ pretty j) (PStr s) res), cn, bw);
     file_loop (S j) rest st).
  set (res0 := dict_set (ps_key s j) (PDict [])
                 (dict_set ("PSStatus" +:+ "_" +:+ pretty j) (PStr s) res)).
  assert (Hk : dict_get (ps_key s j) res0 = Some (PDict [])).
  { unfold res0. by rewrite dict_get_set, String.eqb_refl. }
  destruct (row_fits cn j && row_fits bw j) eqn:Hj; cbn [andb].
  - apply andb_true_iff in Hj as [Fc Fb]. unfold row_fits in Fc, Fb.
    destruct (cn !! j) as [rc|] eqn:Hc; [|done]. destruct (bw !! j) as [rb|] eqn:Hb; [|done].
    apply Nat.leb_le in Fc, Fb.
    rewrite (detector_loop_file j s (ps_key s j) res0 cn bw rc rb) by done. rewrite bind_Ok.
    assert (Hcj : (j < length cn)%nat) by (by apply lookup_lt_Some in Hc).
    assert (Hbj : (j < length bw)%nat) by (by apply lookup_lt_Some in Hb).
    rewrite (forallb_seq_ext _ (fun k => row_fits (<[j := zero_blind s rc]> cn) k &&
                                         row_fits (<[j := zero_blind s rb]> bw) k)).
    + apply IH.
    + intros k Hk'. rewrite !row_fits_insert by lia. done.
  - split; [done|]. intros _.
    rewrite (detector_loop_IndexError j s (ps_key s j) 0 NAMING_CONVENTION res0 cn bw []) by
      (try done; unfold row_fits in Hj; destruct (cn !! j), (bw !! j); simpl in *; done).
    done.
Qed.

(** build_dict_from_results succeeds exactly when every processed file has a
    row of at least 4 entries in both [central_nu_det] and [bandwidth_det];
    otherwise it raises [IndexError], and never any other exception. *)
Theorem build_dict_from_results_fits pol_name duration PSStatus central_nu_det bandwidth_det
    fcn fcne fb fbe :
  (dims_fit PSStatus central_nu_det bandwidth_det = true ->
   exists st, build_dict_from_results pol_name duration PSStatus central_nu_det bandwidth_det
                fcn fcne fb fbe = Ok st) /\
  (dims_fit PSStatus central_nu_det bandwidth_det = false ->
   build_dict_from_results pol_name duration PSStatus central_nu_det bandwidth_det
     fcn fcne fb fbe = Raise IndexError).
Proof. unfold build_dict_from_results, dims_fit. apply file_loop_fits. Qed.

Lemma header_key_fresh (key : string) (PS : list string) :
  (forall s m, key <> ps_key s m) -> (forall m : nat, key <> "PSStatus" +:+ "_" +:+ pretty m) ->
  forall m s, PS !! m = Some s ->
    key <> ps_key s (0 + m)%nat /\ key <> "PSStatus" +:+ "_" +:+ pretty (0 + m)%nat.
Proof. intros H1 H2 m s _. split; [apply H1|apply H2]. Qed.

(** A successful build_dict_from_results keeps the header entries it starts
    with (name, title, sampling frequency, duration in hours, final values)
    and records the status of file [j] under ['PSStatus_j']; the caller's
    arrays keep their shape. *)
Theorem build_dict_from_results_header pol_name duration PSStatus central_nu_det bandwidth_det
    fcn fcne fb fbe res cn' bw' :
  build_dict_from_results pol_name duration PSStatus central_nu_det bandwidth_det
    fcn fcne fb fbe = Ok (res, cn', bw') ->
  dict_get "polarimeter_name" res = Some (PStr pol_name) /\
  dict_get "title" res = Some (PStr ("Bandwidth test for polarimeter " +:+ pol_name)) /\
  dict_get "sampling_frequency" res = Some (PNum 25) /\
  dict_get "test_duration" res = Some (PNum (duration / 60 / 60)) /\
  dict_get "final_central_nu" res = Some (PNum fcn) /\
  dict_get "final_central_nu_err" res = Some (PNum fcne) /\
  dict_get "final_bandwidth" res = Some (PNum fb) /\
  dict_get "final_bandwidth_err" res = Some (PNum fbe) /\
  (forall j s, PSStatus !! j = Some s ->
     dict_get ("PSStatus" +:+ "_" +:+ pretty j) res = Some (PStr s)) /\
  (forall k, length <$> cn' !! k = length <$> central_nu_det !! k) /\
  (forall k, length <$> bw' !! k = length <$> bandwidth_det !! k).
Proof.
  unfold build_dict_from_results. intros H.
  destruct (file_loop_Ok _ _ _ _ _ _ _ _ H) as (K & P & C & B).
  repeat split; try done;
    (rewrite K; [reflexivity|apply header_key_fresh; intros; unfold ps_key; simpl; discriminate]).
Qed.

Lemma build_dict_from_results_header_witness :
  exists res cn' bw',
    build_dict_from_results "STRIP00" 3600 ex_PSStatus ex_central_nu_det ex_bandwidth_det
      42 1 8 1 = Ok (res, cn', bw') /\
  dict_get "polarimeter_name" res = Some (PStr "STRIP00") /\
  dict_get "title" res = Some (PStr ("Bandwidth test for polarimeter " +:+ "STRIP00")) /\
  dict_get "sampling_frequency" res = Some (PNum 25) /\
  dict_get "test_duration" res = Some (PNum (3600 / 60 / 60)) /\
  dict_get "final_central_nu" res = Some (PNum 42) /\
  dict_get "final_central_nu_err" res = Some (PNum 1) /\
  dict_get "final_bandwidth" res = Some (PNum 8) /\
  dict_get "final_bandwidth_err" res = Some (PNum 1) /\
  (forall j s, ex_PSStatus !! j = Some s ->
     dict_get ("PSStatus" +:+ "_" +:+ pretty j) res = Some (PStr s)) /\
  (forall k, length <$> cn' !! k = length <$> ex_central_nu_det !! k) /\
  (forall k, length <$> bw' !! k = length <$> ex_bandwidth_det !! k).
Proof.
  destruct (build_dict_from_results "STRIP00" 3600 ex_PSStatus ex_central_nu_det ex_bandwidth_det
              42 1 8 1) as [[[res cn'] bw']| |] eqn:E; [|vm_compute in E; discriminate ..].
  exists res, cn', bw'. split; [reflexivity|].
  exact (build_dict_from_results_header _ _ _ _ _ _ _ _ _ res cn' bw' E).
Defined.

(** ** Reports beyond the missing title *)











(** ** The blind channel under a common gain and offset *)

Lemma Qle_bool_affine c k x y : 0 < c -> Qle_bool (c * x + k) (c * y + k) = Qle_bool x y.
Proof.
  intros Hc. destruct (Qle_bool x y) eqn:E.
  - apply Qle_bool_iff in E. apply Qle_bool_iff.
    apply Qplus_le_l. apply Qmult_le_l; [exact Hc|exact E].
  - apply not_true_iff_false. apply not_true_iff_false in E.
    intros H. apply E. apply Qle_bool_iff in H. apply Qle_bool_iff.
    apply Qplus_le_l in H. apply Qmult_le_l in H; [exact H|exact Hc].
Qed.

Lemma insert_sorted_affine c k x l : 0 < c ->
  insert_sorted (c * x + k) (map (fun y => c * y + k) l) = map (fun y => c * y + k) (insert_sorted x l).
Proof.
  intros Hc. induction l as [|y l IH]; simpl; [done|].
  rewrite Qle_bool_affine by done. destruct (Qle_bool x y); simpl; [done|]. by rewrite IH.
Qed.

Lemma sort_affine c k l : 0 < c ->
  sort (map (fun y => c * y + k) l) = map (fun y => c * y + k) (sort l).
Proof. intros Hc. induction l as [|x l IH]; simpl; [done|]. by rewrite IH, insert_sorted_affine. Qed.

Lemma nthQ_map_affine c k s i :
  (i < length s)%nat -> nthQ (map (fun y => c * y + k) s) i = c * nthQ s i + k.
Proof.
  intros H. destruct (lookup_lt_is_Some_2 s i H) as [x Hx].
  unfold nthQ. rewrite !nth_lookup.
  change (map (fun y => c * y + k) s) with ((fun y => c * y + k) <$> s).
  by rewrite list_lookup_fmap, Hx.
Qed.

Lemma percentile_index_bound (q : Q) (n : nat) :
  0 <= q <= 100 -> (Z.to_nat (Qfloor (q / 100 * Q_of_nat n)) <= n)%nat.
Proof.
  intros [H0 H1].
  assert (Hh : q / 100 * Q_of_nat n <= inject_Z (Z.of_nat n)).
  { unfold Q_of_nat. assert (0 <= inject_Z (Z.of_nat n)).
    { change 0 with (inject_Z 0). rewrite <- Zle_Qle. lia. }
    assert (q / 100 <= 1).
    { apply Qle_shift_div_r; [reflexivity|]. lra. }
    apply (Qle_trans _ (1 * inject_Z (Z.of_nat n))).
    - apply Qmult_le_compat_r; assumption.
    - rewrite Qmult_1_l. apply Qle_refl. }
  apply Qfloor_resp_le in Hh. rewrite Qfloor_Z in Hh. lia.
Qed.

Lemma percentile_affine c k a q :
  0 < c -> 0 <= q <= 100 -> a <> [] ->
  exists v v', percentile a q = Ok v /\ percentile (map (fun y => c * y + k) a) q = Ok v' /\
    v' == c * v + k.
Proof.
  intros Hc Hq Ha. unfold percentile. rewrite sort_affine, length_map by done.
  pose proof (length_sort a) as Ls.
  destruct (length (sort a)) as [|n] eqn:L; [destruct a; simpl in Ls; [done|lia]|].
  pose proof (percentile_index_bound q (S n - 1) Hq) as Hb.
  remember (Z.to_nat (Qfloor (q / 100 * Q_of_nat (S n - 1)))) as lo eqn:Elo.
  eexists _, _. split; [reflexivity|]. split; [reflexivity|].
  rewrite !nthQ_map_affine by lia. ring.
Qed.

Lemma column_affine c k m rows i :
  Forall (fun r => length r = m) rows -> (i < m)%nat ->
  column (affine_data c k rows) i = map (fun y => c * y + k) (column rows i).
Proof.
  intros Hr Hi. induction Hr as [|r rows Hr0 Hr IH]; simpl; [done|].
  rewrite IH, nthQ_map_affine by lia. done.
Qed.

Lemma ncols_affine c k data : ncols (affine_data c k data) = ncols data.
Proof. destruct data; simpl; [done|]. apply length_map. Qed.

Lemma mapM_Forall2 {A} (f g : A -> outcome Q) (R : Q -> Q -> Prop) (l : list A) :
  (forall x, In x l -> exists y y', f x = Ok y /\ g x = Ok y' /\ R y' y) ->
  exists ys ys', mapM f l = Ok ys /\ mapM g l = Ok ys' /\ Forall2 R ys' ys.
Proof.
  induction l as [|x l IH]; intros H; simpl; [by exists [], []|].
  destruct (H x (or_introl eq_refl)) as (y & y' & Hf & Hg & Hr).
  destruct IH as (ys & ys' & Hfs & Hgs & Hrs); [intros; apply H; by right|].
  rewrite Hf, Hg. simpl. rewrite Hfs, Hgs. simpl. exists (y :: ys), (y' :: ys'). auto.
Qed.

Lemma percentile_axis0_affine c k data q :
  0 < c -> 0 <= q <= 100 -> data <> [] -> rectangular data ->
  exists ys ys', percentile_axis0 data q = Ok ys /\
    percentile_axis0 (affine_data c k data) q = Ok ys' /\
    Forall2 (fun y' y => y' == c * y + k) ys' ys.
Proof.
  intros Hc Hq Hd Hr.
  rewrite !percentile_axis0_cons by (done || (destruct data; done)). rewrite ncols_affine.
  apply mapM_Forall2. intros i Hi. apply in_seq in Hi.
  rewrite (column_affine c k (ncols data)) by (done || lia).
  apply percentile_affine; [done|done|].
  intros E. apply (f_equal length) in E. rewrite column_length in E. destruct data; done.
Qed.

Lemma zip_with_minus_affine c k a' a b' b :
  Forall2 (fun y' y => y' == c * y + k) a' a -> Forall2 (fun y' y => y' == c * y + k) b' b ->
  Forall2 (fun y' y => y' == c * y) (zip_with Qminus a' b') (zip_with Qminus a b).
Proof.
  intros Ha. revert b' b. induction Ha as [|x' x a' a Hx Ha IH]; intros b' b Hb; simpl; [constructor|].
  destruct Hb as [|y' y b' b Hy Hb]; simpl; constructor; [|by apply IH].
  rewrite Hx, Hy. ring.
Qed.

Lemma var_range_affine c k data :
  0 < c -> data <> [] -> rectangular data ->
  exists vr vr', var_range data = Ok vr /\ var_range (affine_data c k data) = Ok vr' /\
    Forall2 (fun y' y => y' == c * y) vr' vr.
Proof.
  intros Hc Hd Hr. unfold var_range.
  destruct (percentile_axis0_affine c k data 95 Hc ltac:(split; unfold Qle; simpl; lia) Hd Hr)
    as (p95 & p95' & H1 & H1' & R1).
  destruct (percentile_axis0_affine c k data 5 Hc ltac:(split; unfold Qle; simpl; lia) Hd Hr)
    as (p5 & p5' & H2 & H2' & R2).
  rewrite H1, H1', H2, H2'. simpl. eexists _, _. split; [reflexivity|]. split; [reflexivity|].
  by apply (zip_with_minus_affine c k).
Qed.

Lemma Qle_bool_scale c x y x' y' : 0 < c -> x' == c * x -> y' == c * y -> Qle_bool x' y' = Qle_bool x y.
Proof.
  intros Hc Hx Hy. rewrite <- (Qle_bool_affine c 0 x y Hc).
  destruct (Qle_bool x' y') eqn:E1, (Qle_bool (c * x + 0) (c * y + 0)) eqn:E2; try done.
  - apply Qle_bool_iff in E1. apply not_true_iff_false in E2. exfalso. apply E2.
    apply Qle_bool_iff. rewrite !Qplus_0_r, <- Hx, <- Hy. done.
  - apply Qle_bool_iff in E2. apply not_true_iff_false in E1. exfalso. apply E1.
    apply Qle_bool_iff. rewrite !Qplus_0_r in E2. rewrite Hx, Hy. done.
Qed.

Lemma argmin_from_scale c l' l i best bv' bv :
  0 < c -> Forall2 (fun y' y => y' == c * y) l' l -> bv' == c * bv ->
  argmin_from l' i best bv' = argmin_from l i best bv.
Proof.
  intros Hc Hl. revert i best bv' bv.
  induction Hl as [|x' x l' l Hx Hl IH]; intros i best bv' bv Hb; simpl; [done|].
  rewrite (Qle_bool_scale c bv x bv' x') by done.
  destruct (Qle_bool bv x); simpl; apply IH; done.
Qed.

(** find_blind_channel gives the same result after the power of all
    detectors goes through one positive gain [c] and one offset [k]: the
    95th-minus-5th percentile ranges all scale by [c], so the smallest stays
    the smallest. *)
Theorem find_blind_channel_affine c k data :
  0 < c -> rectangular data ->
  find_blind_channel (affine_data c k data) = find_blind_channel data.
Proof.
  intros Hc Hr. destruct data as [|r rows]; [reflexivity|].
  destruct (var_range_affine c k (r :: rows)) as (vr & vr' & H & H' & R); try done.
  unfold find_blind_channel. rewrite H, H'. simpl.
  unfold argmin. destruct R as [|x' x l' l Hx Hl]; [reflexivity|].
  rewrite (argmin_from_scale c l' l 1 0 x' x) by done. reflexivity.
Qed.

Lemma find_blind_channel_affine_witness :
  find_blind_channel (affine_data 2 7 ex_flat_col1) = find_blind_channel ex_flat_col1.
Proof.
  apply find_blind_channel_affine; [reflexivity|].
  repeat constructor.
Defined.

(** ** Central frequency and bandwidth under a detector gain *)










Lemma Forall2_Qeq_map {A} (f g : A -> Q) (l : list A) :
  (forall x, f x == g x) -> Forall2 Qeq (map f l) (map g l).
Proof. intros H. induction l as [|x l IH]; simpl; constructor; auto. Qed.




(** ** get_frequency_range_and_data beyond contiguous runs *)

Lemma mapM_length {A B} (f : A -> outcome B) l ys : mapM f l = Ok ys -> length ys = length l.
Proof.
  revert ys. induction l as [|x l IH]; intros ys H; simpl in H; [by injection H as <-|].
  apply bind_Ok_inv in H as (y & _ & H). apply bind_Ok_inv in H as (ys' & Hys & H).
  injection H as <-. simpl. f_equal. by apply IH.
Qed.

Lemma mapM_Forall {A B} (P : B -> Prop) (f : A -> outcome B) l ys :
  mapM f l = Ok ys -> (forall x y, f x = Ok y -> P y) -> Forall P ys.
Proof.
  intros H HP. revert ys H. induction l as [|x l IH]; intros ys H; simpl in H; [by injection H as <-|].
  apply bind_Ok_inv in H as (y & Hy & H). apply bind_Ok_inv in H as (ys' & Hys & H).
  injection H as <-. constructor; [exact (HP x y Hy)|]. by apply IH.
Qed.

Lemma kept_rows_ext nu data data' :
  length nu = length data -> length nu = length data' ->
  (forall i x, nu !! i = Some x -> 0 < x -> data !! i = data' !! i) ->
  kept_rows nu data = kept_rows nu data'.
Proof.
  unfold kept_rows. revert data data'.
  induction nu as [|x nu IH]; intros [|r data] [|r' data'] L1 L2 H; simpl in L1, L2; try lia; [done|].
  cbn [zip zip_with]. rewrite !filter_cons. simpl.
  assert (IH' : map snd (filter (fun p => positive p.1) (zip nu data)) =
                map snd (filter (fun p => positive p.1) (zip nu data'))).
  { apply IH; [lia|lia|]. intros i y Hi. apply (H (S i) y Hi). }
  case_decide as Hx.
  - apply Is_true_true, positive_spec in Hx. simpl. rewrite IH'.
    f_equal. pose proof (H 0%nat x eq_refl Hx) as E. simpl in E. congruence.
  - exact IH'.
Qed.

(** Whatever the input, a result of get_frequency_range_and_data comes
    from arrays of equal length; its frequencies are strictly increasing,
    positive, taken from [nu], and cover every positive frequency of [nu];
    it has one value row per frequency, each with one entry per column of
    [data], and, when [std_dev] is set, one standard-error row of the same
    shape per frequency (none otherwise). *)
Theorem get_frequency_range_and_data_Ok_shape sqrt nu data std_dev rej u med sdo :
  get_frequency_range_and_data sqrt nu data std_dev rej = Ok (u, med, sdo) ->
  length nu = length data /\
  Sorted Qlt u /\
  (forall x, In x u -> In x nu /\ 0 < x) /\
  (forall y, In y nu -> 0 < y -> exists x, In x u /\ x == y) /\
  length med = length u /\ Forall (fun r => length r = ncols data) med /\
  (std_dev = true -> exists se, sdo = Some se /\ length se = length u /\
                                Forall (fun r => length r = ncols data) se) /\
  (std_dev = false -> sdo = None).
Proof.
  intros H. unfold get_frequency_range_and_data, mask_rows in H.
  destruct (Nat.eqb (length nu) (length data)) eqn:L; [|discriminate]. apply Nat.eqb_eq in L.
  rewrite bind_Ok in H. cbv zeta in H.
  apply bind_Ok_inv in H as (rows & Hrows & H). injection H as <- <- <-.
  pose proof (mapM_length _ _ _ Hrows) as Hlen.
  assert (Hsh : Forall (fun y => length y.1 = ncols data /\ length y.2 = ncols data) rows).
  { apply (mapM_Forall _ _ _ _ Hrows). intros x y Hxy.
    apply bind_Ok_inv in Hxy as (mk & Hmk & Hxy). apply bind_Ok_inv in Hxy as (sd & Hsd & Hxy).
    injection Hxy as <-. simpl. rewrite length_map.
    unfold median_axis0 in Hmk. unfold std_axis0 in Hsd.
    rewrite (mapM_length _ _ _ Hmk), (mapM_length _ _ _ Hsd), length_seq. done. }
  split; [done|]. split; [apply unique_values_Sorted|].
  split; [intros x Hx; apply In_filter_positive, (unique_values_In _ _ Hx)|].
  split; [intros y Hy Hp; apply unique_values_cover; by apply In_filter_positive|].
  split; [by rewrite length_map|].
  split; [apply Forall_map; eapply Forall_impl; [exact Hsh|]; by intros y [? ?]|].
  split.
  - intros ->. eexists. split; [reflexivity|]. split; [by rewrite length_map|].
    apply Forall_map. eapply Forall_impl; [exact Hsh|]. by intros y [? ?].
  - by intros ->.
Qed.

Lemma get_frequency_range_and_data_Ok_shape_witness :
  exists u med sdo,
    get_frequency_range_and_data (fun q => q) ex_bin_nu ex_bin_data true 1 = Ok (u, med, sdo) /\
    (length ex_bin_nu = length ex_bin_data /\
     Sorted Qlt u /\
     (forall x, In x u -> In x ex_bin_nu /\ 0 < x) /\
     (forall y, In y ex_bin_nu -> 0 < y -> exists x, In x u /\ x == y) /\
     length med = length u /\ Forall (fun r => length r = ncols ex_bin_data) med /\
     (true = true -> exists se, sdo = Some se /\ length se = length u /\
                                Forall (fun r => length r = ncols ex_bin_data) se) /\
     (true = false -> sdo = None)).
Proof.
  do 3 eexists. split; [reflexivity|].
  apply (get_frequency_range_and_data_Ok_shape (fun q => q) ex_bin_nu ex_bin_data true 1).
  reflexivity.
Defined.

(** Rows of [data] at a frequency [nu <= 0] never reach the result: two
    power arrays of the same shape that agree on every row where [nu > 0]
    give the same result. *)
Theorem get_frequency_range_and_data_nonpositive_rows sqrt nu data data' std_dev rej :
  length nu = length data -> length nu = length data' -> ncols data = ncols data' ->
  (forall i x, nu !! i = Some x -> 0 < x -> data !! i = data' !! i) ->
  get_frequency_range_and_data sqrt nu data std_dev rej =
  get_frequency_range_and_data sqrt nu data' std_dev rej.
Proof.
  intros L1 L2 Hm H. unfold get_frequency_range_and_data.
  rewrite (mask_rows_kept nu data L1), (mask_rows_kept nu data' L2), Hm.
  by rewrite (kept_rows_ext nu data data' L1 L2 H).
Qed.

Lemma get_frequency_range_and_data_nonpositive_rows_witness :
  get_frequency_range_and_data (fun q => q) ex_bin_nu ex_bin_data true 1 =
  get_frequency_range_and_data (fun q => q) ex_bin_nu
    ([7; -8] :: tail (removelast ex_bin_data) ++ [[3; 3]]) true 1.
Proof.
  apply get_frequency_range_and_data_nonpositive_rows; [reflexivity|reflexivity|reflexivity|].
  intros i x Hi Hx.
  do 8 (destruct i as [|i];
        [simpl in Hi; injection Hi as <-;
         first [reflexivity | exfalso; unfold Qlt in Hx; simpl in Hx; lia]|]).
  discriminate.
Defined.

(** ** remove_offset: failures and shape *)

Lemma zip_minus_rows (g : Q -> list Q) (nu : list Q) data m :
  length nu = length data -> Forall (fun r => length r = m) data -> (forall n, length (g n) = m) ->
  Forall (fun r => length r = m) (zip_with (fun n row => zip_with Qminus row (g n)) nu data).
Proof.
  intros L Hr Hg. revert nu L. induction Hr as [|r data Hr0 Hr IH]; intros [|n nu] L; simpl in L; try lia.
  - constructor.
  - simpl. constructor; [|apply IH; lia]. rewrite length_zip_with, Hg, Hr0. lia.
Qed.



(** On a rectangular array of [m] columns, a result of remove_offset has
    one row per sample, each of [m] entries; [m] is at least 4, and every
    column past the four detectors is returned unchanged (its offset is
    0). *)
Theorem remove_offset_Ok_shape nu data data' m :
  Forall (fun r => length r = m) data -> remove_offset nu data = Ok data' ->
  length data' = length data /\ (4 <= m)%nat /\ Forall (fun r => length r = m) data' /\
  (forall j r r' i x, data !! j = Some r -> data' !! j = Some r' -> (4 <= i)%nat ->
     r !! i = Some x -> exists x', r' !! i = Some x' /\ x' == x).
Proof.
  intros Hr H. unfold remove_offset in H.
  destruct (negb (Nat.eqb (length nu) (length data))) eqn:L; [discriminate|].
  apply negb_false_iff, Nat.eqb_eq in L. cbv zeta in H.
  apply bind_Ok_inv in H as (fs_ & _ & H). apply bind_Ok_inv in H as (ss_ & _ & H).
  apply bind_Ok_inv in H as (x1 & Hx1 & H). apply bind_Ok_inv in H as (x2 & _ & H).
  apply bind_Ok_inv in H as (fo & _ & H). apply bind_Ok_inv in H as (so & _ & H).
  destruct (ncols data <? 4)%nat eqn:Hm; [discriminate|]. apply Nat.ltb_ge in Hm.
  injection H as <-.
  assert (Hnc : ncols data = m).
  { destruct data as [|r0 data]; [destruct nu; [discriminate|simpl in L; lia]|].
    simpl. by apply Forall_cons in Hr as [-> _]. }
  rewrite Hnc in Hm |- *.
  split; [rewrite length_zip_with; lia|]. split; [done|]. split.
  { apply zip_minus_rows; [done|done|]. intros n. by rewrite length_map, length_seq. }
  intros j r r' i x Hj Hj' Hi Hx.
  rewrite lookup_zip_with, Hj in Hj'.
  destruct (nu !! j) as [n|]; simpl in Hj'; [|discriminate]. injection Hj' as <-.
  assert (Him : (i < m)%nat).
  { apply lookup_lt_Some in Hx. rewrite (Forall_lookup_1 _ _ _ _ Hr Hj) in Hx. done. }
  rewrite lookup_zip_with, Hx. simpl. rewrite lookup_map_seq.
  apply Nat.ltb_lt in Him. rewrite Him. simpl.
  assert (Hi4 : (i <? 4)%nat = false) by (apply Nat.ltb_ge; lia). rewrite Hi4.
  eexists. split; [reflexivity|]. ring.
Qed.

Lemma remove_offset_Ok_shape_witness :
  exists data', remove_offset ex_sweep_nu ex_sweep_data = Ok data' /\
  (length data' = length ex_sweep_data /\ (4 <= 4)%nat /\ Forall (fun r => length r = 4%nat) data' /\
   (forall j r r' i x, ex_sweep_data !! j = Some r -> data' !! j = Some r' -> (4 <= i)%nat ->
      r !! i = Some x -> exists x', r' !! i = Some x' /\ x' == x)).
Proof.
  eexists. split; [reflexivity|].
  apply (remove_offset_Ok_shape ex_sweep_nu ex_sweep_data _ 4); [|reflexivity].
  repeat constructor.
Defined.

(** ** The spreads of the aggregation step are never negative *)

Lemma sorted_nthQ_le s i j : Sorted Qle s -> (i <= j < length s)%nat -> nthQ s i <= nthQ s j.
Proof.
  intros Hs Hij. destruct (Nat.eq_dec i j) as [->|Hne]; [apply Qle_refl|].
  assert (Hss : StronglySorted Qle s) by (apply Sorted_StronglySorted; [intros x y z; apply Qle_trans|done]).
  destruct (lookup_lt_is_Some_2 s i) as [a Ha]; [lia|].
  destruct (lookup_lt_is_Some_2 s j) as [b Hb]; [lia|].
  unfold nthQ. rewrite (nth_lookup_Some _ _ _ _ Ha), (nth_lookup_Some _ _ _ _ Hb).
  apply (StronglySorted_lookup _ s i j); [done|lia|done|done].
Qed.

Lemma interp_le s n lo1 lo2 g1 g2 :
  Sorted Qle s -> length s = S n -> (lo1 <= n)%nat -> (lo2 <= n)%nat ->
  0 <= g1 <= 1 -> 0 <= g2 <= 1 -> ((lo1 < lo2)%nat \/ (lo1 = lo2 /\ g1 <= g2)) ->
  nthQ s lo1 + g1 * (nthQ s (Nat.min (S lo1) n) - nthQ s lo1) <=
  nthQ s lo2 + g2 * (nthQ s (Nat.min (S lo2) n) - nthQ s lo2).
Proof.
  intros Hs L H1 H2 G1 G2 Hc.
  assert (D1 : 0 <= nthQ s (Nat.min (S lo1) n) - nthQ s lo1).
  { pose proof (sorted_nthQ_le s lo1 (Nat.min (S lo1) n) Hs ltac:(lia)). lra. }
  assert (D2 : 0 <= nthQ s (Nat.min (S lo2) n) - nthQ s lo2).
  { pose proof (sorted_nthQ_le s lo2 (Nat.min (S lo2) n) Hs ltac:(lia)). lra. }
  destruct Hc as [Hlt|[<- Hg]].
  - pose proof (sorted_nthQ_le s (Nat.min (S lo1) n) lo2 Hs ltac:(lia)) as M.
    assert (0 <= (1 - g1) * (nthQ s (Nat.min (S lo1) n) - nthQ s lo1)) by (apply Qmult_le_0_compat; lra).
    assert (0 <= g2 * (nthQ s (Nat.min (S lo2) n) - nthQ s lo2)) by (apply Qmult_le_0_compat; lra).
    nra.
  - assert (0 <= (g2 - g1) * (nthQ s (Nat.min (S lo1) n) - nthQ s lo1)) by (apply Qmult_le_0_compat; lra).
    nra.
Qed.

Lemma floor_frac h : 0 <= h - inject_Z (Qfloor h) <= 1.
Proof.
  pose proof (Qfloor_le h). pose proof (Qlt_floor h).
  rewrite inject_Z_plus in H0. change (inject_Z 1) with 1 in H0. lra.
Qed.

Lemma Q_of_nat_nonneg n : 0 <= Q_of_nat n.
Proof. unfold Q_of_nat. change 0 with (inject_Z 0). rewrite <- Zle_Qle. lia. Qed.

(** [np.percentile] is non-decreasing in [q] on [0, 100]. *)
Lemma percentile_mono a q1 q2 v1 v2 :
  0 <= q1 -> q1 <= q2 -> q2 <= 100 ->
  percentile a q1 = Ok v1 -> percentile a q2 = Ok v2 -> v1 <= v2.
Proof.
  intros Q0 Q12 Q2 P1 P2. unfold percentile in P1, P2. cbv zeta in P1, P2.
  pose proof (sort_Sorted a) as Hs.
  destruct (length (sort a)) as [|n] eqn:L; [discriminate|].
  replace (S n - 1)%nat with n in P1, P2 by lia.
  injection P1 as <-. injection P2 as <-.
  set (h1 := q1 / 100 * Q_of_nat n). set (h2 := q2 / 100 * Q_of_nat n).
  assert (Hq : q1 / 100 <= q2 / 100) by (apply Qmult_le_compat_r; [done|unfold Qle; simpl; lia]).
  assert (Hh : h1 <= h2) by (apply Qmult_le_compat_r; [done|apply Q_of_nat_nonneg]).
  assert (Hh1 : 0 <= h1).
  { apply Qmult_le_0_compat; [|apply Q_of_nat_nonneg]. apply Qle_shift_div_l; [reflexivity|lra]. }
  assert (Z1 : (0 <= Qfloor h1)%Z).
  { pose proof (Qfloor_resp_le 0 h1 Hh1) as E. change (Qfloor 0) with 0%Z in E. done. }
  pose proof (Qfloor_resp_le _ _ Hh) as Z12.
  pose proof (percentile_index_bound q1 n ltac:(lra)) as B1.
  pose proof (percentile_index_bound q2 n ltac:(lra)) as B2.
  fold h1 in B1. fold h2 in B2.
  apply (interp_le (sort a) n (Z.to_nat (Qfloor h1)) (Z.to_nat (Qfloor h2))
           (h1 - inject_Z (Qfloor h1)) (h2 - inject_Z (Qfloor h2)));
    [done|done|done|done|apply floor_frac|apply floor_frac|].
  destruct (Z.lt_ge_cases (Qfloor h1) (Qfloor h2)) as [Hlt|Hge]; [left; lia|right].
  assert (E : Qfloor h1 = Qfloor h2) by lia. split; [by rewrite E|].
  rewrite E. lra.
Qed.

Lemma half_spread_code_nonneg a h : half_spread_code a = Ok h -> 0 <= h.
Proof.
  unfold half_spread_code. intros H.
  apply bind_Ok_inv in H as (hi & Hhi & H). apply bind_Ok_inv in H as (lo & Hlo & H).
  injection H as <-.
  pose proof (percentile_mono a (27 # 10) (977 # 10) lo hi ltac:(discriminate) ltac:(discriminate)
                ltac:(discriminate) Hlo Hhi).
  apply Qle_shift_div_l; [reflexivity|lra].
Qed.

Lemma half_spread_code_ok a : a <> [] -> exists h, half_spread_code a = Ok h.
Proof.
  intros Ha. unfold half_spread_code.
  destruct (percentile_ok a (977 # 10) Ha) as [hi ->]. destruct (percentile_ok a (27 # 10) Ha) as [lo ->].
  eexists. reflexivity.
Qed.

(** The three spreads of the aggregation step of main are defined as soon
    as every row of the combined normalised matrix and both per-file arrays
    are non-empty, and are then never negative: one final-band error per
    row, a final central-frequency error and a final bandwidth error, all
    [>= 0]. *)
Theorem aggregate_errors_nonneg norm_data_All All_central_nu All_bandwidth :
  (Forall (fun r => r <> []) norm_data_All -> All_central_nu <> [] -> All_bandwidth <> [] ->
   exists r, aggregate_errors norm_data_All All_central_nu All_bandwidth = Ok r) /\
  (forall fbe cne bwe,
     aggregate_errors norm_data_All All_central_nu All_bandwidth = Ok (fbe, cne, bwe) ->
     length fbe = length norm_data_All /\ Forall (fun e => 0 <= e) fbe /\ 0 <= cne /\ 0 <= bwe).
Proof.
  split.
  - intros Hr Hc Hb. unfold aggregate_errors.
    destruct (mapM_ok half_spread_code norm_data_All) as (fbe & -> & _).
    { intros x Hx. apply half_spread_code_ok. rewrite Forall_forall in Hr. apply Hr. by apply list_elem_of_In. }
    destruct (half_spread_code_ok _ Hc) as [cne ->]. destruct (half_spread_code_ok _ Hb) as [bwe ->].
    eexists. reflexivity.
  - intros fbe cne bwe H. unfold aggregate_errors in H.
    apply bind_Ok_inv in H as (f & Hf & H). apply bind_Ok_inv in H as (c & Hc & H).
    apply bind_Ok_inv in H as (b & Hb & H). injection H as <- <- <-.
    split; [exact (mapM_length _ _ _ Hf)|]. split; [exact (mapM_Forall _ _ _ _ Hf half_spread_code_nonneg)|].
    split; [exact (half_spread_code_nonneg _ _ Hc)|exact (half_spread_code_nonneg _ _ Hb)].
Qed.

Lemma aggregate_errors_nonneg_witness :
  (exists r, aggregate_errors [ex_norm_row] ex_cf ex_cf = Ok r) /\
  (forall fbe cne bwe, aggregate_errors [ex_norm_row] ex_cf ex_cf = Ok (fbe, cne, bwe) ->
     length fbe = length [ex_norm_row] /\ Forall (fun e => 0 <= e) fbe /\ 0 <= cne /\ 0 <= bwe).
Proof.
  split.
  - apply (proj1 (aggregate_errors_nonneg [ex_norm_row] ex_cf ex_cf)); [repeat constructor; discriminate|discriminate|discriminate].
  - apply (proj2 (aggregate_errors_nonneg [ex_norm_row] ex_cf ex_cf)).
Defined.

(** ** AnalyzeBandTest after binning: shape of the result *)

Lemma find_blind_channel_Ok data idx pss :
  find_blind_channel data = Ok (idx, pss) ->
  (idx = 0%nat /\ pss = "0110") \/ (idx = 3%nat /\ pss = "0101").
Proof.
  unfold find_blind_channel. intros H.
  apply bind_Ok_inv in H as (vr & _ & H). apply bind_Ok_inv in H as (i & _ & H).
  destruct (Nat.eqb i 0) eqn:E0; [injection H as <- <-; left; by apply Nat.eqb_eq in E0|].
  destruct (Nat.eqb i 3) eqn:E3; [injection H as <- <-; right; by apply Nat.eqb_eq in E3|].
  discriminate.
Qed.

Lemma mask_blind_lookup idx a i o :
  mask_blind idx a !! i = Some o -> (o = None <-> i = idx).
Proof.
  unfold mask_blind. rewrite list_lookup_imap.
  destruct (a !! i) as [x|]; simpl; [|discriminate]. intros [= <-].
  destruct (Nat.eqb i idx) eqn:E; [apply Nat.eqb_eq in E|apply Nat.eqb_neq in E]; split; done.
Qed.

Lemma length_kept_columns idx : (idx < 4)%nat -> length (kept_columns idx) = 3%nat.
Proof. intros H. destruct idx as [|[|[|[|idx]]]]; [reflexivity..|lia]. Qed.

(** A result of the post-binning part of AnalyzeBandTest keeps [new_nu],
    holds the binned power with its positive values clamped (so no entry
    is positive), comes from 4-column data, has one normalised row of 3
    entries (the kept detectors) per frequency, and a status "0110" or
    "0101" whose blind detector (0 or 3) is the only masked entry of the
    per-detector central frequencies and bandwidths. *)
Theorem analyze_binned_Ok_shape new_nu new_data0 r :
  analyze_binned new_nu new_data0 = Ok r ->
  res_new_nu r = new_nu /\ res_new_data r = clamp_positive new_data0 /\
  (forall t row i x, res_new_data r !! t = Some row -> row !! i = Some x -> x <= 0) /\
  ncols new_data0 = 4%nat /\
  length (res_norm_data r) = length new_data0 /\
  Forall (fun row => length row = 3%nat) (res_norm_data r) /\
  exists idx, ((idx = 0%nat /\ res_pss r = "0110") \/ (idx = 3%nat /\ res_pss r = "0101")) /\
    (forall i o, res_central_nu_det r !! i = Some o -> (o = None <-> i = idx)) /\
    (forall i o, res_bandwidth_det r !! i = Some o -> (o = None <-> i = idx)).
Proof.
  unfold analyze_binned. intros H.
  apply bind_Ok_inv in H as (cnb & _ & H). apply bind_Ok_inv in H as ([idx pss] & Hf & H).
  destruct (as_array cnb) as [cf bw].
  destruct (negb (length cf =? 4)%nat); [discriminate|].
  destruct (negb (length bw =? 4)%nat); [discriminate|].
  destruct (negb (ncols (clamp_positive new_data0) =? 4)%nat) eqn:Hn; [discriminate|].
  apply negb_false_iff, Nat.eqb_eq in Hn.
  apply bind_Ok_inv in H as (mins & Hm & H).
  injection H as <-. simpl.
  pose proof (find_blind_channel_Ok _ _ _ Hf) as Hidx.
  assert (Hk : length (kept_columns idx) = 3%nat) by (apply length_kept_columns; lia).
  pose proof (mapM_length _ _ _ Hm) as Hml.
  split; [done|]. split; [done|]. split.
  { intros t row i x Ht Hx. pose proof (clamp_nonpos new_data0 row t i Ht) as Hle.
    unfold nthQ in Hle. by rewrite (nth_lookup_Some _ _ _ _ Hx) in Hle. }
  split.
  { destruct new_data0 as [|r0 rows]; simpl in Hn |- *; [done|]. by rewrite length_map in Hn. }
  split; [unfold clamp_positive; by rewrite !length_map|].
  split.
  { apply Forall_map, Forall_forall. intros row _. rewrite length_zip_with. lia. }
  exists idx. split; [done|]. split; intros i o; apply mask_blind_lookup.
Qed.

Lemma analyze_binned_Ok_shape_witness :
  exists r, analyze_binned ex_new_nu ex_new_data = Ok r /\
  (res_new_nu r = ex_new_nu /\ res_new_data r = clamp_positive ex_new_data /\
   (forall t row i x, res_new_data r !! t = Some row -> row !! i = Some x -> x <= 0) /\
   ncols ex_new_data = 4%nat /\
   length (res_norm_data r) = length ex_new_data /\
   Forall (fun row => length row = 3%nat) (res_norm_data r) /\
   exists idx, ((idx = 0%nat /\ res_pss r = "0110") \/ (idx = 3%nat /\ res_pss r = "0101")) /\
     (forall i o, res_central_nu_det r !! i = Some o -> (o = None <-> i = idx)) /\
     (forall i o, res_bandwidth_det r !! i = Some o -> (o = None <-> i = idx))).
Proof.
  eexists. split; [reflexivity|].
  apply (analyze_binned_Ok_shape ex_new_nu ex_new_data). reflexivity.
Defined.

(** ** Central frequency and bandwidth under a shift of the frequency axis *)

Lemma zip_minus_shift k (l1 l2 : list Q) :
  Forall2 Qeq (zip_with Qminus (map (fun y => y + k) l1) (map (fun y => y + k) l2)) (zip_with Qminus l1 l2).
Proof.
  revert l2. induction l1 as [|x l1 IH]; intros [|y l2]; simpl; constructor; [ring|apply IH].
Qed.

Lemma diffs_shift k nu : Forall2 Qeq (diffs (map (fun y => y + k) nu)) (diffs nu).
Proof. destruct nu as [|x nu]; [constructor|]. apply zip_minus_shift. Qed.

Lemma Qle_bool_Qeq x x' y y' : x == x' -> y == y' -> Qle_bool x y = Qle_bool x' y'.
Proof.
  intros Hx Hy. apply Bool.eq_iff_eq_true. rewrite !Qle_bool_iff, Hx, Hy. done.
Qed.

Lemma allclose_Qeq a a' b b' : Forall2 Qeq a a' -> b == b' -> allclose a b = allclose a' b'.
Proof.
  intros Ha Hb. unfold allclose. induction Ha as [|x x' a a' Hx Ha IH]; [done|]. cbn [forallb].
  rewrite IH. f_equal. assert (E : x == x') by exact Hx.
  apply Qle_bool_Qeq; rewrite ?E, Hb; reflexivity.
Qed.

Lemma qsum_moment_shift k col nu : length col = length nu ->
  qsum (zip_with Qmult col (map (fun y => y + k) nu)) ==
  qsum (zip_with Qmult col nu) + k * qsum col.
Proof.
  revert nu. induction col as [|c col IH]; intros [|y nu] L; simpl in L; try lia; simpl; [ring|].
  rewrite IH by lia. ring.
Qed.

(** Moving the frequency axis by [k], for data with one row per
    frequency whose columns do not sum to 0, moves every central frequency
    get_central_nu_bandwidth returns by [k] and leaves every bandwidth
    unchanged; an axis the function rejects is rejected after the shift
    too, with the same error. *)
Theorem get_central_nu_bandwidth_shift k nu data :
  length data = length nu ->
  (forall i, (i < ncols data)%nat -> ~ qsum (column data i) == 0) ->
  cnb_shifted k (get_central_nu_bandwidth (map (fun y => y + k) nu) data)
                (get_central_nu_bandwidth nu data).
Proof.
  intros L Hs. unfold get_central_nu_bandwidth. cbv zeta.
  pose proof (diffs_shift k nu) as Hd.
  destruct (diffs (map (fun y => y + k) nu)) as [|d0' ds'] eqn:Ed';
    destruct (diffs nu) as [|d0 ds] eqn:Ed; inversion Hd as [|? ? ? ? Hd0 Hds]; subst; [reflexivity|].
  rewrite (allclose_Qeq (d0' :: ds') (d0 :: ds) d0' d0 Hd Hd0).
  destruct (negb (allclose (d0 :: ds) d0)); [reflexivity|].
  rewrite length_map, <- L, Nat.eqb_refl.
  destruct nu as [|x nu]; [discriminate|].
  assert (Hbw : forall col, bandwidth_of col d0' == bandwidth_of col d0).
  { intros col. unfold bandwidth_of. by rewrite Hd0. }
  assert (Hlc : forall i, length (column data i) = length (x :: nu)) by (intros i; by rewrite column_length).
  destruct (Nat.eqb (ncols data) (length data)) eqn:Hm.
  - apply Nat.eqb_eq in Hm. simpl.
    assert (H0 : ~ qsum (column data 0) == 0) by (apply Hs; rewrite Hm, L; simpl; lia).
    split; constructor; [|constructor| |constructor].
    + unfold nthQ. simpl. field. done.
    + apply Hbw.
  - assert (Hc : forall i, In i (seq 0 (ncols data)) ->
              central_of (column data i) (map (fun y => y + k) (x :: nu)) == central_of (column data i) (x :: nu) + k).
    { intros i Hi. apply in_seq in Hi. unfold central_of.
      rewrite qsum_moment_shift by apply Hlc. field. apply Hs. lia. }
    rewrite !map_map.
    destruct (Nat.eqb (ncols data) 1) eqn:H1.
    + apply Nat.eqb_eq in H1. rewrite H1 in Hc |- *. simpl. split.
      * unfold nthQ. simpl. apply Hc. simpl. auto.
      * apply Hbw.
    + simpl. split.
      * induction (seq 0 (ncols data)) as [|i l IH]; simpl; constructor.
        -- apply Hc. simpl. auto.
        -- apply IH. intros j Hj. apply Hc. simpl. auto.
      * apply Forall2_Qeq_map. intros i. apply Hbw.
Qed.

Lemma get_central_nu_bandwidth_shift_witness :
  cnb_shifted 2 (get_central_nu_bandwidth (map (fun y => y + 2) (grid 38 1 4)) (window_column 1 2 5 4))
                (get_central_nu_bandwidth (grid 38 1 4) (window_column 1 2 5 4)).
Proof.
  apply get_central_nu_bandwidth_shift; [reflexivity|].
  intros i Hi. assert (i = 0%nat) by (simpl in Hi; lia). subst i. vm_compute. discriminate.
Defined.

(** ** AnalyzeBandTest after binning on square data *)

Lemma cnb_square nu data cnb :
  length data = ncols data -> get_central_nu_bandwidth nu data = Ok cnb ->
  length (as_array cnb).1 = 1%nat.
Proof.
  intros H. unfold get_central_nu_bandwidth. cbv zeta.
  destruct (diffs nu) as [|d0 ds]; [discriminate|].
  destruct (negb (allclose (d0 :: ds) d0)); [discriminate|].
  rewrite H, Nat.eqb_refl.
  destruct (ncols data =? length nu)%nat; [intros [= <-]; reflexivity|].
  destruct (ncols data =? 1)%nat; [intros [= <-]; reflexivity|discriminate].
Qed.

Lemma clamp_square data :
  length data = ncols data -> length (clamp_positive data) = ncols (clamp_positive data).
Proof.
  unfold clamp_positive. intros H. rewrite length_map, H.
  destruct data as [|r data]; simpl; [done|]. by rewrite length_map.
Qed.

(** With as many binned frequencies as detector columns, the post-binning
    part of AnalyzeBandTest never succeeds: get_central_nu_bandwidth takes
    its square branch and returns one-entry arrays, which
    [np.ma.masked_array] cannot pair with the 4-entry mask, so once the
    central frequencies and the blind channel are computed the call raises
    MaskError. *)
Theorem analyze_binned_square new_nu new_data0 :
  length new_data0 = ncols new_data0 ->
  (forall r, analyze_binned new_nu new_data0 <> Ok r) /\
  (forall cnb b, get_central_nu_bandwidth new_nu (clamp_positive new_data0) = Ok cnb ->
     find_blind_channel (clamp_positive new_data0) = Ok b ->
     analyze_binned new_nu new_data0 = Raise MaskError).
Proof.
  intros H. pose proof (clamp_square _ H) as Hc.
  assert (Hm : forall cnb b, get_central_nu_bandwidth new_nu (clamp_positive new_data0) = Ok cnb ->
                 find_blind_channel (clamp_positive new_data0) = Ok b ->
                 analyze_binned new_nu new_data0 = Raise MaskError).
  { intros cnb [idx pss] Hg Hf. unfold analyze_binned. rewrite Hg, bind_Ok, Hf, bind_Ok.
    pose proof (cnb_square _ _ _ Hc Hg) as L.
    destruct (as_array cnb) as [cf bw]. simpl in L. by rewrite L. }
  split; [|exact Hm].
  intros r E.
  destruct (get_central_nu_bandwidth new_nu (clamp_positive new_data0)) as [cnb| |] eqn:Hg;
    [|unfold analyze_binned in E; rewrite Hg in E; discriminate..].
  destruct (find_blind_channel (clamp_positive new_data0)) as [b| |] eqn:Hf;
    [|unfold analyze_binned in E; rewrite Hg, bind_Ok, Hf in E; discriminate..].
  rewrite (Hm cnb b eq_refl eq_refl) in E. discriminate.
Qed.

Lemma analyze_binned_square_witness :
  analyze_binned ex_square_nu ex_square_data = Raise MaskError.
Proof.
  eapply (proj2 (analyze_binned_square ex_square_nu ex_square_data eq_refl)); reflexivity.
Defined.
